(** * os-agent, package [system]: a shallow embedding of [system/system.go]

    The package exposes four D-Bus methods ([WipeDevice],
    [ScheduleWipeDevice], [AddSSHAuthKey], [ClearSSHAuthKeys]) and one
    writable property ([LoadUSBIP]).  Every handler is sequential code
    talking to an outside party: the UDisks2 helper, the file system or
    the process table.  Each party is modelled as explicit state that
    the handler threads through its calls, together with a record of
    the calls that were made, so that statements such as "no format
    call is issued" are statements about that record. *)

From Stdlib Require Import Ascii String.
From stdpp Require Import base option list gmap strings pretty.

(** ** Constants of the package *)

Definition objectPath : string := "/io/hass/os/System".
Definition ifaceName : string := "io.hass.os.System".
Definition labelDataFileSystem : string := "hassos-data".
Definition labelOverlayFileSystem : string := "hassos-overlay".
Definition kernelCommandLine : string := "/mnt/boot/cmdline.txt".
Definition tmpKernelCommandLine : string := "/mnt/boot/.tmp.cmdline.txt".
Definition sshAuthKeyFileName : string := "/root/.ssh/authorized_keys".
Definition moduleLoadCommand : string := "/sbin/modprobe".

(** ** Go values used by the package *)

(** The byte 0x22, written by its code so that no literal needs it. *)
Definition dquote : string := String (ascii_of_nat 34) EmptyString.

(** [strings.Contains], as a proposition: [sub] occurs inside [s]. *)
Definition Contains (s sub : string) : Prop :=
  ∃ pre post : string, s = pre +:+ sub +:+ post.

(** The [syscall.Errno] values that matter to the handlers. *)
Inductive Errno := ENOENT | EACCES | EPERM | EIO | ENOSPC | EROFS | EMFILE | EBUSY.

Definition Errno_text (e : Errno) : string :=
  match e with
  | ENOENT => "no such file or directory"
  | EACCES => "permission denied"
  | EPERM => "operation not permitted"
  | EIO => "input/output error"
  | ENOSPC => "no space left on device"
  | EROFS => "read-only file system"
  | EMFILE => "too many open files"
  | EBUSY => "device or resource busy"
  end.

(** godbus' [dbus.Error]: a name and a body.  [MakeFailedError] only
    ever stores one string in the body. *)
Record DBusError := mkDBusError { Name : string; Body : list string }.

(** A non-nil Go [error].  A nil [error] is [None] of [option error]. *)
Inductive error :=
  | errorString (msg : string)                      (* errors.New, fmt.Errorf *)
  | PathError (op path : string) (errno : Errno)    (* *os.PathError *)
  | LinkError (op old new : string) (errno : Errno) (* *os.LinkError *)
  | ExitError (code : nat)                          (* *exec.ExitError *)
  | ErrDBus (e : DBusError).                        (* *dbus.Error *)

(** [dbus.Error.Error()]: the first body element, or the name. *)
Definition DBusError_Error (e : DBusError) : string :=
  match Body e with
  | s :: _ => s
  | [] => Name e
  end.

(** [err.Error()]. *)
Definition Error (err : error) : string :=
  match err with
  | errorString msg => msg
  | PathError op path errno => op +:+ " " +:+ path +:+ ": " +:+ Errno_text errno
  | LinkError op old new errno =>
      op +:+ " " +:+ old +:+ " " +:+ new +:+ ": " +:+ Errno_text errno
  | ExitError code => "exit status " +:+ pretty code
  | ErrDBus e => DBusError_Error e
  end.

(** [os.IsNotExist]. *)
Definition IsNotExist (err : error) : bool :=
  match err with
  | PathError _ _ ENOENT | LinkError _ _ _ ENOENT => true
  | _ => false
  end.

(** [dbus.MakeFailedError(err)] for a non-nil [err]. *)
Definition MakeFailedError (err : error) : DBusError :=
  {| Name := "org.freedesktop.DBus.Error.Failed"; Body := [Error err] |}.

(** What a Go call can do: return, or panic. *)
Inductive Outcome (A : Type) :=
  | Returned (a : A)
  | Panicked (msg : string).
Arguments Returned {A} a.
Arguments Panicked {A} msg.

(** [dbus.MakeFailedError(err)] for an [err] that may be nil: the body
    calls [err.Error()], which on a nil interface value panics. *)
Definition MakeFailedError_nilable (err : option error) : Outcome DBusError :=
  match err with
  | Some e => Returned (MakeFailedError e)
  | None => Panicked "runtime error: invalid memory address or nil pointer dereference"
  end.

(** [fmt]'s rendering of a [[]string] under the verb [%s]:
    the elements separated by one space, inside square brackets. *)
Fixpoint join_space (l : list string) : string :=
  match l with
  | [] => EmptyString
  | [x] => x
  | x :: rest => x +:+ " " +:+ join_space rest
  end.

Definition fmt_strings (l : list string) : string := "[" +:+ join_space l +:+ "]".

(** ** Device wipe: [getAndCheckBusObjectFromLabel] and [WipeDevice] *)

(** A [dbus.BusObject] is identified by its object path. *)
Definition BusObject := string.

(** The calls the package makes on the UDisks2 helper, as recorded. *)
Inductive Call :=
  | CallGetBusObjectFromLabel (label : string)
  | CallGetMountPointsString (obj : BusObject)
  | CallFormatPartition (obj : BusObject) (fstype label : string).

(** The format calls of a record, in order. *)
Definition format_calls (cs : list Call) : list (BusObject * string * string) :=
  omap (λ c, match c with
             | CallFormatPartition o t l => Some (o, t, l)
             | _ => None
             end) cs.

Section Wipe.
(** [W] is the state of the storage subsystem, whatever it is. *)
Context {W : Type}.

(** [udisks2.UDisks2Helper] with [udisks2.Filesystem]: the three
    operations the package uses, each acting on the storage state. *)
Record UDisks2Helper := {
  GetBusObjectFromLabel : string → W → (BusObject + error) * W;
  GetMountPointsString : BusObject → W → (list string + error) * W;
  FormatPartition : BusObject → string → string → W → option error * W
}.

(** The storage state together with the record of calls made so far. *)
Record Bus := mkBus { storage : W; calls : list Call }.

Definition M (A : Type) : Type := Bus → A * Bus.

Definition callGetBusObjectFromLabel (h : UDisks2Helper) (label : string)
  : M (BusObject + error) :=
  λ b, let '(r, w) := GetBusObjectFromLabel h label (storage b) in
       (r, mkBus w (calls b ++ [CallGetBusObjectFromLabel label])).

Definition callGetMountPointsString (h : UDisks2Helper) (obj : BusObject)
  : M (list string + error) :=
  λ b, let '(r, w) := GetMountPointsString h obj (storage b) in
       (r, mkBus w (calls b ++ [CallGetMountPointsString obj])).

Definition callFormatPartition (h : UDisks2Helper) (obj : BusObject)
    (fstype label : string) : M (option error) :=
  λ b, let '(r, w) := FormatPartition h obj fstype label (storage b) in
       (r, mkBus w (calls b ++ [CallFormatPartition obj fstype label])).

Definition getAndCheckBusObjectFromLabel (udisks2helper : UDisks2Helper)
    (label : string) : M (BusObject + error) :=
  λ b,
  let '(r, b) := callGetBusObjectFromLabel udisks2helper label b in
  match r with
  | inr err => (inr (ErrDBus (MakeFailedError err)), b)
  | inl dataBusObject =>
      let '(r, b) := callGetMountPointsString udisks2helper dataBusObject b in
      match r with
      | inr err => (inr (ErrDBus (MakeFailedError err)), b)
      | inl dataMountPoints =>
          if decide (0 < length dataMountPoints) then
            (inr (ErrDBus (MakeFailedError (errorString
               ("Device with label " +:+ dquote +:+ label +:+ dquote
                +:+ " is mounted at " +:+ fmt_strings dataMountPoints
                +:+ ", aborting.")))), b)
          else (inl dataBusObject, b)
      end
  end.

Definition WipeDevice (udisks2helper : UDisks2Helper) : M (bool * option DBusError) :=
  λ b,
  let '(r, b) := getAndCheckBusObjectFromLabel udisks2helper labelDataFileSystem b in
  match r with
  | inr err => ((false, Some (MakeFailedError err)), b)
  | inl dataBusObject =>
      let '(r, b) :=
        getAndCheckBusObjectFromLabel udisks2helper labelOverlayFileSystem b in
      match r with
      | inr err => ((false, Some (MakeFailedError err)), b)
      | inl overlayBusObject =>
          let '(err, b) :=
            callFormatPartition udisks2helper dataBusObject "ext4"
              labelDataFileSystem b in
          match err with
          | Some err => ((false, Some (MakeFailedError err)), b)
          | None =>
              let '(err, b) :=
                callFormatPartition udisks2helper overlayBusObject "ext4"
                  labelOverlayFileSystem b in
              match err with
              | Some err => ((false, Some (MakeFailedError err)), b)
              | None => ((true, None), b)
              end
          end
      end
  end.
End Wipe.
Arguments UDisks2Helper W : clear implicits.
Arguments Bus W : clear implicits.

(** ** Go's [strings] and [path/filepath] functions used by the package *)

(** Go strings are byte strings; the scanning functions below work on
    the bytes. *)
Abbreviation bytes_of := list_ascii_of_string.
Abbreviation string_of := string_of_list_ascii.

(** The one-byte white space of [unicode.IsSpace]: tab, line feed,
    vertical tab, form feed, carriage return and space. *)
Definition ascii_space (a : ascii) : bool :=
  let a := nat_of_ascii a in
  bool_decide (9 ≤ a ≤ 13 ∨ a = 32).

(** The two-byte UTF-8 encodings of white space: U+0085 and U+00A0. *)
Definition utf8_space2 (a b : ascii) : bool :=
  let a := nat_of_ascii a in
  let b := nat_of_ascii b in
  bool_decide (a = 194 ∧ (b = 133 ∨ b = 160)).

(** The three-byte ones: U+1680, U+2000 to U+200A, U+2028, U+2029,
    U+202F, U+205F and U+3000. *)
Definition utf8_space3 (a b c : ascii) : bool :=
  let a := nat_of_ascii a in
  let b := nat_of_ascii b in
  let c := nat_of_ascii c in
  bool_decide
    ((a = 225 ∧ b = 154 ∧ c = 128)
     ∨ (a = 226 ∧ b = 128 ∧ (128 ≤ c ≤ 138 ∨ c = 168 ∨ c = 169 ∨ c = 175))
     ∨ (a = 226 ∧ b = 129 ∧ c = 159)
     ∨ (a = 227 ∧ b = 128 ∧ c = 128)).

(** [strings.TrimLeftFunc(s, unicode.IsSpace)]: decode the rune at the
    front, drop it while it is white space.  A rune that is white
    space is one of the encodings above; any other front (another
    rune, or bytes that decode to [utf8.RuneError]) stops the scan. *)
Fixpoint trim_left (s : list ascii) : list ascii :=
  match s with
  | [] => []
  | a :: s1 =>
      if ascii_space a then trim_left s1 else
      match s1 with
      | [] => s
      | b :: s2 =>
          if utf8_space2 a b then trim_left s2 else
          match s2 with
          | [] => s
          | c :: s3 => if utf8_space3 a b c then trim_left s3 else s
          end
      end
  end.

(** The same scan from the back, on the reversed bytes: the last byte
    comes first, so an encoding is read back to front. *)
Fixpoint trim_left_rev (r : list ascii) : list ascii :=
  match r with
  | [] => []
  | c :: r1 =>
      if ascii_space c then trim_left_rev r1 else
      match r1 with
      | [] => r
      | b :: r2 =>
          if utf8_space2 b c then trim_left_rev r2 else
          match r2 with
          | [] => r
          | a :: r3 => if utf8_space3 a b c then trim_left_rev r3 else r
          end
      end
  end.

(** [strings.TrimRightFunc(s, unicode.IsSpace)]. *)
Definition trim_right (s : list ascii) : list ascii :=
  rev (trim_left_rev (rev s)).

(** [strings.TrimSpace]: white space removed at both ends. *)
Definition TrimSpace (s : string) : string :=
  string_of (trim_right (trim_left (bytes_of s))).

(** The specification's wording for the same step, "trims trailing
    whitespace": white space removed at the end only.  The package does
    not call it; it is here to be compared with [TrimSpace]. *)
Definition TrimRightSpace (s : string) : string :=
  string_of (trim_right (bytes_of s)).

(** A byte string made of white space only. *)
Inductive Spaces : list ascii → Prop :=
  | Spaces_nil : Spaces []
  | Spaces_1 a l : ascii_space a = true → Spaces l → Spaces (a :: l)
  | Spaces_2 a b l : utf8_space2 a b = true → Spaces l → Spaces (a :: b :: l)
  | Spaces_3 a b c l :
      utf8_space3 a b c = true → Spaces l → Spaces (a :: b :: c :: l).

(** [strings.SplitN(s, sep, n)] for a non-empty [sep] and [n ≥ 0]:
    at most [n] pieces, the last one being the unsplit rest. *)
Fixpoint SplitN (s sep : string) (n : nat) : list string :=
  match n with
  | 0 => []
  | 1 => [s]
  | S n' =>
      match index 0 sep s with
      | None => [s]
      | Some m =>
          substring 0 m s
          :: SplitN (substring (m + String.length sep)
                       (String.length s - (m + String.length sep)) s) sep n'
      end
  end.

Definition slash : ascii := "/"%char.

Fixpoint drop_slashes (r : list ascii) : list ascii :=
  match r with
  | a :: r' => if Ascii.eqb a slash then drop_slashes r' else r
  | [] => []
  end.

Fixpoint upto_slash (r : list ascii) : list ascii :=
  match r with
  | a :: r' => if Ascii.eqb a slash then [] else a :: upto_slash r'
  | [] => []
  end.

(** [filepath.Base] on Unix: the last element of the path, after
    trailing slashes are dropped. *)
Definition Base (path : string) : string :=
  match path with
  | EmptyString => "."
  | _ =>
      match rev (upto_slash (drop_slashes (rev (bytes_of path)))) with
      | [] => "/"
      | last => string_of last
      end
  end.

(** ** The file system *)

(** The files by path, and every content the file system has gone
    through since the handler started, oldest first: what a reader, or
    a crash, at any moment can have seen. *)
Record Disk := mkDisk {
  files : gmap string string;
  history : list (gmap string string)
}.

Definition boot (fs : gmap string string) : Disk := mkDisk fs [fs].

(** How a write can go wrong: the file cannot be opened, or the write
    or the close fails after [n] bytes reached the file. *)
Inductive WriteFault :=
  | WriteSucceeds
  | OpenFails (err : error)
  | WriteFailsAfter (n : nat) (err : error).

(** [ioutil.ReadFile]. *)
Definition ReadFile (fault : option error) (name : string) (d : Disk)
  : (string + error) * Disk :=
  match fault with
  | Some err => (inr err, d)
  | None =>
      match files d !! name with
      | Some data => (inl data, d)
      | None => (inr (PathError "open" name ENOENT), d)
      end
  end.

(** The file [name] truncated, then filled byte by byte up to [n]
    bytes of [data]. *)
Definition write_bytes (name data : string) (n : nat) (d : Disk) : Disk :=
  mkDisk (<[name := substring 0 n data]> (files d))
         (history d ++ ((λ i, <[name := substring 0 i data]> (files d)) <$> seq 0 (S n))).

(** [ioutil.WriteFile]: open with O_WRONLY|O_CREATE|O_TRUNC, write,
    close. *)
Definition WriteFile (fault : WriteFault) (name data : string) (d : Disk)
  : option error * Disk :=
  match fault with
  | OpenFails err => (Some err, d)
  | WriteFailsAfter n err =>
      (Some err, write_bytes name data (n `min` String.length data) d)
  | WriteSucceeds => (None, write_bytes name data (String.length data) d)
  end.

(** [os.Rename]: one step, or nothing. *)
Definition Rename (fault : option error) (oldpath newpath : string) (d : Disk)
  : option error * Disk :=
  match fault with
  | Some err => (Some err, d)
  | None =>
      match files d !! oldpath with
      | None => (Some (LinkError "rename" oldpath newpath ENOENT), d)
      | Some data =>
          let fs := <[newpath := data]> (delete oldpath (files d)) in
          (None, mkDisk fs (history d ++ [fs]))
      end
  end.

(** [os.Remove]. *)
Definition Remove (fault : option error) (name : string) (d : Disk)
  : option error * Disk :=
  match fault with
  | Some err => (Some err, d)
  | None =>
      match files d !! name with
      | None => (Some (PathError "remove" name ENOENT), d)
      | Some _ =>
          let fs := delete name (files d) in
          (None, mkDisk fs (history d ++ [fs]))
      end
  end.

(** ** Scheduled wipe and SSH keys *)

(** What the file system does to the three calls of
    [ScheduleWipeDevice]. *)
Record IOFaults := mkIOFaults {
  on_read : option error;
  on_write : WriteFault;
  on_rename : option error
}.

Definition no_faults : IOFaults := mkIOFaults None WriteSucceeds None.

Definition ScheduleWipeDevice (io : IOFaults) (d : Disk)
  : (bool * option DBusError) * Disk :=
  let '(r, d) := ReadFile (on_read io) kernelCommandLine d in
  match r with
  | inr err => ((false, Some (MakeFailedError err)), d)
  | inl data =>
      let datastr := TrimSpace data in
      let datastr := datastr +:+ " haos.wipe=1" in
      let '(err, d) := WriteFile (on_write io) tmpKernelCommandLine datastr d in
      match err with
      | Some err => ((false, Some (MakeFailedError err)), d)
      | None =>
          let '(err, d) :=
            Rename (on_rename io) tmpKernelCommandLine kernelCommandLine d in
          match err with
          | Some err => ((false, Some (MakeFailedError err)), d)
          | None => ((true, None), d)
          end
      end
  end.

Definition ClearSSHAuthKeys (fault : option error) (d : Disk)
  : option DBusError * Disk :=
  let '(err, d) := Remove fault sshAuthKeyFileName d in
  match err with
  | Some err =>
      if IsNotExist err then (Some (MakeFailedError err), d) else (None, d)
  | None => (None, d)
  end.

(** ** Processes: [os/exec] *)

(** A program maps its arguments and the kernel's module table to what
    it prints on standard output and its exit status. *)
Definition Program : Type := list string → list string → string * nat.

Record Kernel := mkKernel {
  modules : list string;                 (* the names in /proc/modules *)
  programs : string → option Program;    (* the executable files, by path *)
  searchPath : list string;              (* the directories of $PATH *)
  spawned : list (string * list string)  (* processes started: path, argv *)
}.

(** [exec.Cmd], the fields the package reaches. *)
Record Cmd := mkCmd {
  Path : string;
  Args : list string;
  Err : option error;
  Stdin : bool          (* whether Stdin is set *)
}.

(** [exec.LookPath] for a file name without a slash. *)
Definition LookPath (file : string) (k : Kernel) : string + error :=
  match list_find
          (λ dir, bool_decide (is_Some (programs k (dir +:+ "/" +:+ file))))
          (searchPath k) with
  | Some (_, dir) => inl (dir +:+ "/" +:+ file)
  | None =>
      inr (errorString ("exec: " +:+ dquote +:+ file +:+ dquote
                        +:+ ": executable file not found in $PATH"))
  end.

(** [exec.Command(name, arg...)]: no shell is involved; [name] is the
    program, looked up in $PATH only when it has no directory part. *)
Definition Command (name : string) (arg : list string) (k : Kernel) : Cmd :=
  if String.eqb (Base name) name then
    match LookPath name k with
    | inl lp => mkCmd lp (name :: arg) None false
    | inr err => mkCmd name (name :: arg) (Some err) false
    end
  else mkCmd name (name :: arg) None false.

(** [cmd.Output()]: start the program, wait, return what it printed. *)
Definition Output (c : Cmd) (k : Kernel) : (string * option error) * Kernel :=
  match Err c with
  | Some err => ((EmptyString, Some err), k)
  | None =>
      match programs k (Path c) with
      | None => ((EmptyString, Some (PathError "fork/exec" (Path c) ENOENT)), k)
      | Some run =>
          let '(out, status) := run (Args c) (modules k) in
          let k := mkKernel (modules k) (programs k) (searchPath k)
                     (spawned k ++ [(Path c, Args c)]) in
          match status with
          | 0 => ((out, None), k)
          | _ => ((out, Some (ExitError status)), k)
          end
      end
  end.

(** [cmd.StdinPipe()]: creates a pipe for a command that has not been
    started; it starts nothing.  [fault] is the failure of [os.Pipe],
    if any. *)
Definition StdinPipe (fault : option error) (c : Cmd) : option error * Cmd :=
  if Stdin c then (Some (errorString "exec: Stdin already set"), c)
  else
    match fault with
    | Some err => (Some err, c)
    | None => (None, mkCmd (Path c) (Args c) (Err c) true)
    end.

(** ** The kernel-module property *)

(** A value of Go's [interface{}], as carried by a property change. *)
Inductive Variant :=
  | VBool (b : bool)
  | VString (s : string)
  | VInt (n : Z).

(** The name of the dynamic type, as a failed type assertion prints it. *)
Definition Variant_type (v : Variant) : string :=
  match v with
  | VBool _ => "bool"
  | VString _ => "string"
  | VInt _ => "int64"
  end.

(** [prop.Change]. *)
Record Change := mkChange {
  ChangeIface : string;
  ChangeName : string;
  Value : Variant
}.

(** The state of the service: the package variable [loadUSBIP], the
    value of the exported property [LoadUSBIP] held by
    [prop.Properties] ([None] before it is exported), and the kernel. *)
Record Service := mkService {
  loadUSBIP : bool;
  exported : option bool;
  kernel : Kernel
}.

Definition getDriverStatus (k : Kernel) : Outcome bool * Kernel :=
  let cmd := "cat /proc/modules | grep vhci-hcd" in
  let '((out, err), k) := Output (Command cmd [] k) k in
  match err with
  | Some _ => (Returned false, k)
  | None =>
      match SplitN out " " 2 with
      | value :: _ => (Returned (String.eqb value "vhci-hcd"), k)
      | [] => (Panicked "runtime error: index out of range [0] with length 0", k)
      end
  end.

(** [pipe] is the failure of [os.Pipe] inside [StdinPipe], if any. *)
Definition LoadKernelDriver (pipe : option error) (c : Change) (s : Service)
  : Outcome (option DBusError) * Service :=
  match Value c with
  | VBool v =>
      let s := mkService v (exported s) (kernel s) in
      let err : option error := None in
      let cmd := Command moduleLoadCommand [] (kernel s) in
      let cmd :=
        if v then mkCmd (Path cmd) (Args cmd ++ ["vhci-hcd"]) (Err cmd) (Stdin cmd)
        else mkCmd (Path cmd) (Args cmd ++ ["--remove"; "vhci-hcd"]) (Err cmd)
               (Stdin cmd) in
      let '(cerror, cmd) := StdinPipe pipe cmd in
      match cerror with
      | Some _ =>
          match MakeFailedError_nilable err with
          | Returned e => (Returned (Some e), s)
          | Panicked msg => (Panicked msg, s)
          end
      | None => (Returned None, s)
      end
  | other =>
      (Panicked ("interface conversion: interface {} is " +:+ Variant_type other
                 +:+ ", not bool"), s)
  end.

(** What the bus does to the three exports of [InitializeDBus]. *)
Record BusFaults := mkBusFaults {
  on_prop_export : option error;
  on_export : option error;
  on_export_introspectable : option error
}.

Definition InitializeDBus (bus : BusFaults) (s : Service) : Outcome unit * Service :=
  let '(r, k) := getDriverStatus (kernel s) in
  match r with
  | Panicked msg => (Panicked msg, mkService (loadUSBIP s) (exported s) k)
  | Returned status =>
      let s := mkService status (exported s) k in
      match on_prop_export bus with
      | Some err => (Panicked (Error err), s)
      | None =>
          let s := mkService (loadUSBIP s) (Some (loadUSBIP s)) (kernel s) in
          match on_export bus with
          | Some err => (Panicked (Error err), s)
          | None =>
              match on_export_introspectable bus with
              | Some err => (Panicked (Error err), s)
              | None => (Returned (), s)
              end
          end
      end
  end.

(** The module [name] is in the running kernel's module table. *)
Definition module_loaded (name : string) (k : Kernel) : Prop := name ∈ modules k.

(** ** Situations the statements below speak about *)

(** The error of [getAndCheckBusObjectFromLabel] for a mounted volume. *)
Definition mountedError (label : string) (mps : list string) : error :=
  ErrDBus (MakeFailedError (errorString
    ("Device with label " +:+ dquote +:+ label +:+ dquote
     +:+ " is mounted at " +:+ fmt_strings mps +:+ ", aborting."))).

Section WipeSituations.
Context {W : Type} (h : UDisks2Helper W).

(** On the storage [w], the label resolves to the volume [obj],
    which reports the mount points [mps]; [w'] is the storage after
    these two queries. *)
Definition resolves (label : string) (w : W) (obj : BusObject)
    (mps : list string) (w' : W) : Prop :=
  ∃ w1, GetBusObjectFromLabel h label w = (inl obj, w1)
        ∧ GetMountPointsString h obj w1 = (inl mps, w').

(** Label resolution fails with [err] during [WipeDevice] started on
    [w]: for the data label, or, the data volume having passed its
    check, for the overlay label. *)
Definition resolution_fails (w : W) (err : error) : Prop :=
  (GetBusObjectFromLabel h labelDataFileSystem w).1 = inr err
  ∨ ∃ obj w1, resolves labelDataFileSystem w obj [] w1
              ∧ (GetBusObjectFromLabel h labelOverlayFileSystem w1).1 = inr err.
End WipeSituations.

(** A small storage subsystem to run the handlers on: the volumes with
    their label, object path and mount points, and whether formatting
    them fails. *)
Record Volume := mkVolume {
  vlabel : string;
  vobject : BusObject;
  vmounts : list string;
  vbroken : bool
}.

Definition volumesHelper : UDisks2Helper (list Volume) := {|
  GetBusObjectFromLabel label vs :=
    match list_find (λ v, bool_decide (vlabel v = label)) vs with
    | Some (_, v) => (inl (vobject v), vs)
    | None => (inr (errorString ("No device with label " +:+ label +:+ " found.")), vs)
    end;
  GetMountPointsString obj vs :=
    match list_find (λ v, bool_decide (vobject v = obj)) vs with
    | Some (_, v) => (inl (vmounts v), vs)
    | None => (inr (errorString "Object does not exist"), vs)
    end;
  FormatPartition obj fstype label vs :=
    match list_find (λ v, bool_decide (vobject v = obj)) vs with
    | Some (_, v) =>
        if vbroken v then (Some (errorString "Error formatting partition"), vs)
        else (None, vs)
    | None => (Some (errorString "Object does not exist"), vs)
    end
|}.

Definition dataVolume (mounts : list string) (broken : bool) : Volume :=
  mkVolume "hassos-data" "/org/freedesktop/UDisks2/block_devices/sda8" mounts broken.

Definition overlayVolume (mounts : list string) (broken : bool) : Volume :=
  mkVolume "hassos-overlay" "/org/freedesktop/UDisks2/block_devices/sda7" mounts broken.

(** A machine with the usual programs and the module table [mods]. *)
Definition modprobe : Program := λ _ _, (EmptyString, 0).
Definition cat_modules : Program := λ _ mods, (join_space mods, 0).

Definition usualPrograms (path : string) : option Program :=
  if String.eqb path "/sbin/modprobe" then Some modprobe
  else if String.eqb path "/bin/cat" then Some cat_modules
  else None.

Definition machine (mods : list string) : Kernel :=
  mkKernel mods usualPrograms ["/usr/sbin"; "/usr/bin"; "/sbin"; "/bin"] [].

Definition no_bus_faults : BusFaults := mkBusFaults None None None.

(** ** The rest of the package: [AddSSHAuthKey] *)

(** The byte 0x0A. *)
Definition newline : string := String (ascii_of_nat 10) EmptyString.

(** [os.OpenFile(name, os.O_APPEND|os.O_CREATE|os.O_WRONLY, perm)]:
    a file that is absent is created empty.  The handle stands for
    the path. *)
Definition OpenFileAppend (fault : option error) (name : string) (d : Disk)
  : option error * Disk :=
  match fault with
  | Some err => (Some err, d)
  | None =>
      match files d !! name with
      | Some _ => (None, d)
      | None =>
          let fs := <[name := EmptyString]> (files d) in
          (None, mkDisk fs (history d ++ [fs]))
      end
  end.

(** [file.WriteString(s)] on a file opened for appending: the bytes of
    [s] reach the end of the file one after the other.  A failure comes
    with the number of bytes that were written before it. *)
Definition WriteString (fault : option (nat * error)) (name s : string) (d : Disk)
  : option error * Disk :=
  let n := match fault with
           | Some (n, _) => n `min` String.length s
           | None => String.length s
           end in
  let old := default EmptyString (files d !! name) in
  (snd <$> fault,
   mkDisk (<[name := old +:+ substring 0 n s]> (files d))
          (history d
           ++ ((λ i, <[name := old +:+ substring 0 i s]> (files d)) <$> seq 1 n))).

(** The deferred [file.Close()] has its result dropped. *)
Definition AddSSHAuthKey (open : option error) (write : option (nat * error))
    (newKey : string) (d : Disk) : option DBusError * Disk :=
  let '(err, d) := OpenFileAppend open sshAuthKeyFileName d in
  match err with
  | Some err => (Some (MakeFailedError err), d)
  | None =>
      let '(err, d) := WriteString write sshAuthKeyFileName (newKey +:+ newline) d in
      match err with
      | Some err => (Some (MakeFailedError err), d)
      | None => (None, d)
      end
  end.

(** ** Further situations *)

(** The kernel [k] with another $PATH. *)
Definition withSearchPath (dirs : list string) (k : Kernel) : Kernel :=
  mkKernel (modules k) (programs k) dirs (spawned k).

(** A byte string that does not start with white space. *)
Definition starts_clean (s : list ascii) : Prop :=
  match s with
  | [] => True
  | a :: s1 =>
      ascii_space a = false
      ∧ match s1 with
        | [] => True
        | b :: s2 =>
            utf8_space2 a b = false
            ∧ match s2 with
              | [] => True
              | c :: _ => utf8_space3 a b c = false
              end
        end
  end.

(** The storage subsystem above with a mount-point query that always
    fails. *)
Definition volumesHelperNoMounts : UDisks2Helper (list Volume) := {|
  GetBusObjectFromLabel := GetBusObjectFromLabel volumesHelper;
  GetMountPointsString _ vs := (inr (errorString "Timeout was reached"), vs);
  FormatPartition := FormatPartition volumesHelper
|}.

(** * Properties *)

(** ** Byte strings *)

Lemma append_cons (x : ascii) (a b : string) :
  String x a +:+ b = String x (a +:+ b).
Proof. reflexivity. Qed.

Lemma append_nil_l (a : string) : EmptyString +:+ a = a.
Proof. reflexivity. Qed.

Lemma append_assoc (a b c : string) : (a +:+ b) +:+ c = a +:+ b +:+ c.
Proof.
  induction a as [|x a IH]; [done |]. by rewrite !append_cons, IH.
Qed.

Lemma append_nil_r (a : string) : a +:+ EmptyString = a.
Proof. induction a as [|x a IH]; [done |]. by rewrite append_cons, IH. Qed.

Lemma Contains_refl (s : string) : Contains s s.
Proof. exists EmptyString, EmptyString. by rewrite append_nil_r. Qed.

Lemma Contains_inside (a s b sub : string) :
  Contains s sub → Contains (a +:+ s +:+ b) sub.
Proof.
  intros (pre & post & ->). exists (a +:+ pre), (post +:+ b).
  by rewrite !append_assoc.
Qed.

Lemma Contains_join_space (l : list string) (x : string) :
  x ∈ l → Contains (join_space l) x.
Proof.
  induction l as [|y l IH]; intros Hin; [by apply not_elem_of_nil in Hin |].
  apply elem_of_cons in Hin as [-> | Hin].
  - destruct l as [|z l]; simpl; [apply Contains_refl |].
    exists EmptyString, (" " +:+ join_space (z :: l)). done.
  - destruct l as [|z l]; [by apply not_elem_of_nil in Hin |].
    change (join_space (y :: z :: l)) with (y +:+ " " +:+ join_space (z :: l)).
    specialize (IH Hin). destruct IH as (pre & post & ->).
    exists (y +:+ " " +:+ pre), post. by rewrite !append_assoc.
Qed.

(** ** Device wipe *)

Section WipeProperties.
Context {W : Type} (h : UDisks2Helper W).

Lemma getAndCheck_resolves label w obj mps w' cs :
  resolves h label w obj mps w' →
  getAndCheckBusObjectFromLabel h label (mkBus w cs)
  = (match mps with [] => inl obj | _ => inr (mountedError label mps) end,
     mkBus w' (cs ++ [CallGetBusObjectFromLabel label; CallGetMountPointsString obj])).
Proof.
  intros (w1 & H1 & H2).
  unfold getAndCheckBusObjectFromLabel, callGetBusObjectFromLabel,
    callGetMountPointsString.
  simpl. rewrite H1. simpl. rewrite H2.
  rewrite <- app_assoc. simpl.
  destruct mps as [|mp mps]; reflexivity.
Qed.

Lemma getAndCheck_lookup_fails label w err cs :
  (GetBusObjectFromLabel h label w).1 = inr err →
  getAndCheckBusObjectFromLabel h label (mkBus w cs)
  = (inr (ErrDBus (MakeFailedError err)),
     mkBus (GetBusObjectFromLabel h label w).2
           (cs ++ [CallGetBusObjectFromLabel label])).
Proof.
  intros H1.
  unfold getAndCheckBusObjectFromLabel, callGetBusObjectFromLabel. simpl.
  destruct (GetBusObjectFromLabel h label w) as [r w1]. simpl in *. by subst r.
Qed.

(** C1. When the data volume (label hassos-data) resolves and reports
    at least one mount point, [WipeDevice] returns false with a
    [dbus.Error] of the Failed kind whose message contains the label
    and every mount point; the helper has been asked the two queries
    on the data volume and nothing else, so no format call is issued
    to either volume, whatever the state of the overlay volume. *)
Theorem WipeDevice_data_mounted w obj mps w' :
  resolves h labelDataFileSystem w obj mps w' →
  mps ≠ [] →
  ∃ e,
    WipeDevice h (mkBus w [])
    = ((false, Some e),
       mkBus w' [CallGetBusObjectFromLabel labelDataFileSystem;
                 CallGetMountPointsString obj])
    ∧ Name e = "org.freedesktop.DBus.Error.Failed"
    ∧ Contains (DBusError_Error e) labelDataFileSystem
    ∧ (∀ mp, mp ∈ mps → Contains (DBusError_Error e) mp)
    ∧ format_calls (calls (WipeDevice h (mkBus w [])).2) = [].
Proof.
  intros Hres Hne.
  exists (MakeFailedError (mountedError labelDataFileSystem mps)).
  assert (WipeDevice h (mkBus w [])
          = ((false, Some (MakeFailedError (mountedError labelDataFileSystem mps))),
             mkBus w' [CallGetBusObjectFromLabel labelDataFileSystem;
                       CallGetMountPointsString obj])) as Hrun.
  { unfold WipeDevice. rewrite (getAndCheck_resolves _ _ _ _ _ _ Hres).
    destruct mps; [done | reflexivity]. }
  rewrite Hrun. repeat split.
  - exists ("Device with label " +:+ dquote),
      (dquote +:+ " is mounted at " +:+ fmt_strings mps +:+ ", aborting.").
    cbn [DBusError_Error MakeFailedError mountedError Body Error].
    by rewrite !append_assoc.
  - intros mp Hin.
    cbn [DBusError_Error MakeFailedError mountedError Body Error].
    rewrite <- (append_assoc _ dquote), <- (append_assoc _ labelDataFileSystem),
      <- (append_assoc _ dquote), <- (append_assoc _ " is mounted at ").
    apply Contains_inside. unfold fmt_strings.
    apply Contains_inside. by apply Contains_join_space.
Qed.

(** C2. When both volumes resolve and report no mount point, the
    format calls are the data volume first, as ext4 under its own
    label, and then, only if that format succeeded, the overlay
    volume, as ext4 under its own label: two calls unless the first
    one fails.  [WipeDevice] returns success exactly when both format
    calls succeed, and otherwise the error of the call that failed. *)
Theorem WipeDevice_formats_in_order w0 objd w1 objo w2 :
  resolves h labelDataFileSystem w0 objd [] w1 →
  resolves h labelOverlayFileSystem w1 objo [] w2 →
  let r := WipeDevice h (mkBus w0 []) in
  let fd := FormatPartition h objd "ext4" labelDataFileSystem w2 in
  let fo := FormatPartition h objo "ext4" labelOverlayFileSystem fd.2 in
  let data := (objd, "ext4", labelDataFileSystem) in
  let overlay := (objo, "ext4", labelOverlayFileSystem) in
  match fd.1, fo.1 with
  | None, None =>
      format_calls (calls r.2) = [data; overlay]
      ∧ r.1 = (true, None) ∧ storage r.2 = fo.2
  | None, Some err =>
      format_calls (calls r.2) = [data; overlay]
      ∧ r.1 = (false, Some (MakeFailedError err)) ∧ storage r.2 = fo.2
  | Some err, _ =>
      format_calls (calls r.2) = [data]
      ∧ r.1 = (false, Some (MakeFailedError err)) ∧ storage r.2 = fd.2
  end
  ∧ (r.1.1 = true ↔ fd.1 = None ∧ fo.1 = None).
Proof.
  intros Hd Ho. cbv zeta. unfold WipeDevice.
  rewrite (getAndCheck_resolves _ _ _ _ _ _ Hd).
  rewrite (getAndCheck_resolves _ _ _ _ _ _ Ho).
  unfold callFormatPartition. cbn [storage calls].
  destruct (FormatPartition h objd "ext4" labelDataFileSystem w2) as [[e1|] w3];
    cbn [fst snd storage calls].
  - split; [done |]. split; [done |]. by intros [? _].
  - destruct (FormatPartition h objo "ext4" labelOverlayFileSystem w3)
      as [[e2|] w4]; cbn [fst snd storage calls].
    + split; [done |]. split; [done |]. by intros [_ ?].
    + done.
Qed.

(** C6. When label resolution fails for the data label, or, the data
    volume having passed its check, for the overlay label,
    [WipeDevice] returns false with a [dbus.Error] carrying the
    message of that error, and no format call has been issued. *)
Theorem WipeDevice_resolution_fails w err :
  resolution_fails h w err →
  let r := WipeDevice h (mkBus w []) in
  ∃ e, r.1 = (false, Some e)
       ∧ Name e = "org.freedesktop.DBus.Error.Failed"
       ∧ DBusError_Error e = Error err
       ∧ format_calls (calls r.2) = [].
Proof.
  intros [Hdata | (obj & w1 & Hdata & Hover)]; cbv zeta;
    exists (MakeFailedError (ErrDBus (MakeFailedError err)));
    unfold WipeDevice.
  - by rewrite (getAndCheck_lookup_fails _ _ _ _ Hdata).
  - rewrite (getAndCheck_resolves _ _ _ _ _ _ Hdata).
    by rewrite (getAndCheck_lookup_fails _ _ _ _ Hover).
Qed.
End WipeProperties.

(** A data volume whose format fails: one format call, no second one. *)
Example WipeDevice_first_format_fails :
  let vs := [dataVolume [] true; overlayVolume [] false] in
  let r := WipeDevice volumesHelper (mkBus vs []) in
  r.1 = (false, Some (MakeFailedError (errorString "Error formatting partition")))
  ∧ format_calls (calls r.2) = [(vobject (dataVolume [] true), "ext4", "hassos-data")].
Proof. split; reflexivity. Qed.

Lemma WipeDevice_data_mounted_witness :
  let vs := [dataVolume ["/mnt/data"] false; overlayVolume ["/mnt/overlay"] false] in
  ∃ e,
    WipeDevice volumesHelper (mkBus vs [])
    = ((false, Some e),
       mkBus vs [CallGetBusObjectFromLabel labelDataFileSystem;
                 CallGetMountPointsString (vobject (dataVolume [] false))])
    ∧ Name e = "org.freedesktop.DBus.Error.Failed"
    ∧ Contains (DBusError_Error e) labelDataFileSystem
    ∧ (∀ mp, mp ∈ ["/mnt/data"] → Contains (DBusError_Error e) mp)
    ∧ format_calls (calls (WipeDevice volumesHelper (mkBus vs [])).2) = [].
Proof.
  intros vs.
  apply (WipeDevice_data_mounted volumesHelper vs _ ["/mnt/data"] vs).
  - exists vs. split; reflexivity.
  - discriminate.
Defined.

Lemma WipeDevice_formats_in_order_witness :
  let vs := [dataVolume [] false; overlayVolume [] false] in
  let r := WipeDevice volumesHelper (mkBus vs []) in
  (format_calls (calls r.2)
   = [(vobject (dataVolume [] false), "ext4", "hassos-data");
      (vobject (overlayVolume [] false), "ext4", "hassos-overlay")]
   ∧ r.1 = (true, None) ∧ storage r.2 = vs)
  ∧ (r.1.1 = true ↔ @None error = None ∧ @None error = None).
Proof.
  intros vs.
  apply (WipeDevice_formats_in_order volumesHelper vs
           (vobject (dataVolume [] false)) vs (vobject (overlayVolume [] false)) vs).
  - exists vs. split; reflexivity.
  - exists vs. split; reflexivity.
Defined.

Lemma WipeDevice_resolution_fails_witness :
  let vs := [dataVolume [] false] in
  let r := WipeDevice volumesHelper (mkBus vs []) in
  ∃ e, r.1 = (false, Some e)
       ∧ Name e = "org.freedesktop.DBus.Error.Failed"
       ∧ DBusError_Error e = "No device with label hassos-overlay found."
       ∧ format_calls (calls r.2) = [].
Proof.
  intros vs.
  apply (WipeDevice_resolution_fails volumesHelper vs
           (errorString "No device with label hassos-overlay found.")).
  right. exists (vobject (dataVolume [] false)), vs. split.
  - exists vs. split; reflexivity.
  - reflexivity.
Defined.

(** ** White space trimming *)

Lemma Spaces_app (l1 l2 : list ascii) : Spaces l1 → Spaces l2 → Spaces (l1 ++ l2).
Proof.
  induction 1 as [|a l Ha _ IH|a b l Hab _ IH|a b c l Habc _ IH]; intros H2; simpl.
  - done.
  - by apply Spaces_1, IH.
  - by apply Spaces_2, IH.
  - by apply Spaces_3, IH.
Qed.

(** [trim_left] removes a run of white space from the front and nothing else. *)
Lemma trim_left_split (s : list ascii) :
  ∃ lead, s = lead ++ trim_left s ∧ Spaces lead.
Proof.
  induction s as [s IH] using (induction_ltof1 _ (@length ascii)).
  unfold ltof in IH.
  destruct s as [|a s1]; [exists []; split; [done | constructor] |].
  cbn [trim_left]. destruct (ascii_space a) eqn:Ha.
  { destruct (IH s1) as (lead & Heq & Hsp); [simpl; lia |].
    exists (a :: lead). split; [simpl; by rewrite <- Heq | by constructor]. }
  destruct s1 as [|b s2]; [exists []; split; [done | constructor] |].
  destruct (utf8_space2 a b) eqn:Hab.
  { destruct (IH s2) as (lead & Heq & Hsp); [simpl; lia |].
    exists (a :: b :: lead). split; [simpl; by rewrite <- Heq | by constructor]. }
  destruct s2 as [|c s3]; [exists []; split; [done | constructor] |].
  destruct (utf8_space3 a b c) eqn:Habc.
  { destruct (IH s3) as (lead & Heq & Hsp); [simpl; lia |].
    exists (a :: b :: c :: lead). split; [simpl; by rewrite <- Heq | by constructor]. }
  exists []. split; [done | constructor].
Qed.

Lemma trim_left_rev_split (r : list ascii) :
  ∃ lead, r = lead ++ trim_left_rev r ∧ Spaces (rev lead).
Proof.
  induction r as [r IH] using (induction_ltof1 _ (@length ascii)).
  unfold ltof in IH.
  destruct r as [|c r1]; [exists []; split; [done | constructor] |].
  cbn [trim_left_rev]. destruct (ascii_space c) eqn:Hc.
  { destruct (IH r1) as (lead & Heq & Hsp); [simpl; lia |].
    exists (c :: lead). split; [simpl; by rewrite <- Heq |].
    simpl. apply Spaces_app; [done | by repeat constructor]. }
  destruct r1 as [|b r2]; [exists []; split; [done | constructor] |].
  destruct (utf8_space2 b c) eqn:Hbc.
  { destruct (IH r2) as (lead & Heq & Hsp); [simpl; lia |].
    exists (c :: b :: lead). split; [simpl; by rewrite <- Heq |].
    simpl. rewrite <- app_assoc. apply Spaces_app; [done |].
    apply Spaces_2; [done | constructor]. }
  destruct r2 as [|a r3]; [exists []; split; [done | constructor] |].
  destruct (utf8_space3 a b c) eqn:Habc.
  { destruct (IH r3) as (lead & Heq & Hsp); [simpl; lia |].
    exists (c :: b :: a :: lead). split; [simpl; by rewrite <- Heq |].
    simpl. rewrite <- !app_assoc. apply Spaces_app; [done |].
    apply Spaces_3; [done | constructor]. }
  exists []. split; [done | constructor].
Qed.

Lemma trim_right_split (s : list ascii) :
  ∃ trail, s = trim_right s ++ trail ∧ Spaces trail.
Proof.
  destruct (trim_left_rev_split (rev s)) as (lead & Heq & Hsp).
  exists (rev lead). split; [| done].
  unfold trim_right. rewrite <- rev_app_distr, <- Heq. by rewrite rev_involutive.
Qed.

(** [TrimSpace] keeps the bytes between the leading and the trailing
    white space as they are. *)
Lemma TrimSpace_split (s : string) :
  ∃ lead trail,
    bytes_of s = lead ++ bytes_of (TrimSpace s) ++ trail
    ∧ Spaces lead ∧ Spaces trail.
Proof.
  destruct (trim_left_split (bytes_of s)) as (lead & Hl & Hsl).
  destruct (trim_right_split (trim_left (bytes_of s))) as (trail & Hr & Hst).
  exists lead, trail. split; [| done].
  unfold TrimSpace. rewrite list_ascii_of_string_of_list_ascii.
  by rewrite <- Hr.
Qed.

Lemma substring_full (s : string) : substring 0 (String.length s) s = s.
Proof. induction s as [|a s IH]; simpl; [done | by rewrite IH]. Qed.

(** ** Scheduled wipe *)

Lemma tmp_is_not_boot : tmpKernelCommandLine ≠ kernelCommandLine.
Proof. discriminate. Qed.

Lemma write_bytes_history (name data : string) (n : nat) (d : Disk)
    (fs' : gmap string string) :
  fs' ∈ history (write_bytes name data n d) →
  fs' ∈ history d ∨ ∃ i, fs' = <[name := substring 0 i data]> (files d).
Proof.
  unfold write_bytes. cbn [history]. intros [Hin | Hin]%elem_of_app; [by left |].
  right. apply list_elem_of_fmap in Hin as (i & -> & _). by exists i.
Qed.

Lemma write_bytes_last (name data : string) (n : nat) (d : Disk) :
  last (history (write_bytes name data n d)) = Some (files (write_bytes name data n d)).
Proof.
  unfold write_bytes. cbn [history files].
  rewrite seq_S, fmap_app, app_assoc. cbn [fmap list_fmap]. by rewrite last_snoc.
Qed.

Lemma write_bytes_other (name data : string) (n : nat) (d : Disk) (p : string) :
  p ≠ name → files (write_bytes name data n d) !! p = files d !! p.
Proof. intros Hp. unfold write_bytes. cbn [files]. by rewrite lookup_insert_ne. Qed.

(** A failed write leaves every file but the one written as it was. *)
Lemma WriteFile_fails_other fault name data d err p :
  (WriteFile fault name data d).1 = Some err →
  p ≠ name →
  files (WriteFile fault name data d).2 !! p = files d !! p.
Proof.
  destruct fault; cbn [WriteFile fst snd]; intros Herr Hp; [done | done |].
  by apply write_bytes_other.
Qed.

Lemma ReadFile_disk fault name d : (ReadFile fault name d).2 = d.
Proof. unfold ReadFile. by repeat case_match. Qed.

Lemma ReadFile_data fault name d data :
  (ReadFile fault name d).1 = inl data → files d !! name = Some data.
Proof. unfold ReadFile. repeat case_match; naive_solver. Qed.

Lemma WriteFile_history fault name data d fs' :
  fs' ∈ history (WriteFile fault name data d).2 →
  fs' ∈ history d ∨ ∃ i, fs' = <[name := substring 0 i data]> (files d).
Proof.
  destruct fault; cbn [WriteFile snd]; [| by left |]; apply write_bytes_history.
Qed.

Lemma WriteFile_written fault name data d :
  (WriteFile fault name data d).1 = None →
  files (WriteFile fault name data d).2 = <[name := data]> (files d).
Proof.
  destruct fault; cbn [WriteFile fst snd]; [| done | done].
  intros _. unfold write_bytes. cbn [files]. by rewrite substring_full.
Qed.

Lemma WriteFile_last fault name data d :
  last (history d) = Some (files d) →
  last (history (WriteFile fault name data d).2)
  = Some (files (WriteFile fault name data d).2).
Proof.
  destruct fault; cbn [WriteFile snd]; [| done |]; intros _; apply write_bytes_last.
Qed.

Lemma Rename_history fault old new d fs' :
  fs' ∈ history (Rename fault old new d).2 →
  fs' ∈ history d
  ∨ ∃ data, files d !! old = Some data
            ∧ (Rename fault old new d).1 = None
            ∧ fs' = <[new := data]> (delete old (files d))
            ∧ fs' = files (Rename fault old new d).2.
Proof.
  unfold Rename. destruct fault; [by left |].
  destruct (files d !! old) as [data|]; [| by left].
  cbn [snd fst history files]. intros [Hin | ->%list_elem_of_singleton]%elem_of_app;
    [by left | right; by exists data].
Qed.

Lemma Rename_fails fault old new d err :
  (Rename fault old new d).1 = Some err → (Rename fault old new d).2 = d.
Proof. unfold Rename. by repeat case_match. Qed.

Lemma Rename_last fault old new d :
  last (history d) = Some (files d) →
  last (history (Rename fault old new d).2) = Some (files (Rename fault old new d).2).
Proof.
  unfold Rename. repeat case_match; cbn [snd history files]; try done.
  intros _. by rewrite last_snoc.
Qed.

(** [ScheduleWipeDevice], step by step. *)
Lemma ScheduleWipeDevice_unfold io d :
  ScheduleWipeDevice io d =
  let rd := ReadFile (on_read io) kernelCommandLine d in
  match rd.1 with
  | inr err => ((false, Some (MakeFailedError err)), rd.2)
  | inl data =>
      let wr := WriteFile (on_write io) tmpKernelCommandLine
                  (TrimSpace data +:+ " haos.wipe=1") rd.2 in
      match wr.1 with
      | Some err => ((false, Some (MakeFailedError err)), wr.2)
      | None =>
          let rn := Rename (on_rename io) tmpKernelCommandLine kernelCommandLine wr.2 in
          match rn.1 with
          | Some err => ((false, Some (MakeFailedError err)), rn.2)
          | None => ((true, None), rn.2)
          end
      end
  end.
Proof.
  unfold ScheduleWipeDevice. cbv zeta.
  destruct (ReadFile _ _ _) as [[data|err] d1]; cbn [fst snd]; [| done].
  destruct (WriteFile _ _ _ _) as [[err|] d2]; cbn [fst snd]; [done |].
  by destruct (Rename _ _ _ _) as [[err|] d3].
Qed.

(** C4. [ScheduleWipeDevice] writes only to the temporary file, which
    lies in the directory of the boot command-line file, and replaces
    the boot file by one rename.  Among all the contents the file
    system goes through, byte by byte, the boot file is either as it
    was before the call or, in the final state of a successful call,
    whole with its new content.  If the read fails, or if the write of
    the temporary file fails, the call returns false with the I/O
    error, and every file other than the temporary one is as before. *)
Theorem ScheduleWipeDevice_atomic (io : IOFaults) (fs : gmap string string) :
  let r := ScheduleWipeDevice io (boot fs) in
  (∃ dir, kernelCommandLine = dir +:+ Base kernelCommandLine
          ∧ tmpKernelCommandLine = dir +:+ Base tmpKernelCommandLine)
  ∧ last (history r.2) = Some (files r.2)
  ∧ (∀ fs', fs' ∈ history r.2 →
     fs' !! kernelCommandLine = fs !! kernelCommandLine
     ∨ ∃ data, fs !! kernelCommandLine = Some data
               ∧ r.1 = (true, None) ∧ fs' = files r.2
               ∧ fs' !! kernelCommandLine = Some (TrimSpace data +:+ " haos.wipe=1"))
  ∧ (∀ err, (ReadFile (on_read io) kernelCommandLine (boot fs)).1 = inr err →
       r.1 = (false, Some (MakeFailedError err)) ∧ files r.2 = fs)
  ∧ (∀ data err,
       (ReadFile (on_read io) kernelCommandLine (boot fs)).1 = inl data →
       (WriteFile (on_write io) tmpKernelCommandLine
          (TrimSpace data +:+ " haos.wipe=1") (boot fs)).1 = Some err →
       r.1 = (false, Some (MakeFailedError err))
       ∧ ∀ p, p ≠ tmpKernelCommandLine → files r.2 !! p = fs !! p).
Proof.
  cbv zeta. rewrite ScheduleWipeDevice_unfold. cbv zeta.
  rewrite ReadFile_disk.
  split; [by exists "/mnt/boot/" |].
  destruct (ReadFile (on_read io) kernelCommandLine (boot fs)).1 as [data|err] eqn:Hread.
  2:{ cbn [fst snd boot history files]. split_and!; try done.
      - intros fs' ->%list_elem_of_singleton. by left.
      - intros ? ?. by simplify_eq. }
  apply ReadFile_data in Hread. cbn [boot files] in Hread.
  set (new := TrimSpace data +:+ " haos.wipe=1").
  pose proof (WriteFile_history (on_write io) tmpKernelCommandLine new (boot fs)) as Hwh.
  pose proof (WriteFile_written (on_write io) tmpKernelCommandLine new (boot fs)) as Hww.
  pose proof (WriteFile_last (on_write io) tmpKernelCommandLine new (boot fs) eq_refl) as Hwl.
  pose proof (WriteFile_fails_other (on_write io) tmpKernelCommandLine new (boot fs)) as Hwo.
  assert (∀ fs', fs' ∈ history (WriteFile (on_write io) tmpKernelCommandLine new (boot fs)).2
            → fs' !! kernelCommandLine = fs !! kernelCommandLine) as Hwb.
  { intros fs' [->%list_elem_of_singleton | [i ->]]%Hwh; [done |].
    cbn [boot files]. by rewrite lookup_insert_ne. }
  destruct (WriteFile (on_write io) tmpKernelCommandLine new (boot fs))
    as [[werr|] d2] eqn:Hwrite; cbn [fst snd] in *.
  { split_and!; try done.
    - intros fs' Hin. left. by apply Hwb.
    - intros data' err' ? Herr. simplify_eq. fold new in Herr.
      rewrite Hwrite in Herr. cbn [fst] in Herr. simplify_eq.
      split; [done |]. intros p Hp. by eapply Hwo. }
  specialize (Hww eq_refl).
  assert (∀ (data' : string) (err : error),
            @inl string error data = inl data' →
            (WriteFile (on_write io) tmpKernelCommandLine
               (TrimSpace data' +:+ " haos.wipe=1") (boot fs)).1 = Some err →
            False) as Hno.
  { intros data' err' ? Herr. simplify_eq. fold new in Herr.
    by rewrite Hwrite in Herr. }
  pose proof (Rename_history (on_rename io) tmpKernelCommandLine kernelCommandLine d2) as Hrh.
  pose proof (Rename_fails (on_rename io) tmpKernelCommandLine kernelCommandLine d2) as Hrf.
  pose proof (Rename_last (on_rename io) tmpKernelCommandLine kernelCommandLine d2 Hwl) as Hrl.
  destruct (Rename (on_rename io) tmpKernelCommandLine kernelCommandLine d2) as [[rerr|] d3];
    cbn [fst snd] in *.
  - rewrite (Hrf _ eq_refl) in *. split_and!; try done.
    + intros fs' Hin. left. by apply Hwb.
    + intros ? ? ? ?. by edestruct Hno.
  - split_and!; try done.
    + intros fs' [Hin | (data' & Hl & _ & -> & Hfs)]%Hrh; [left; by apply Hwb |].
      right. exists data. rewrite Hww, lookup_insert_eq in Hl. simplify_eq.
      split_and!; try done. by rewrite lookup_insert_eq.
    + intros ? ? ? ?. by edestruct Hno.
Qed.

Lemma ScheduleWipeDevice_atomic_witness :
  let io := mkIOFaults None
              (WriteFailsAfter 5 (PathError "write" tmpKernelCommandLine ENOSPC)) None in
  let fs : gmap string string := {[ kernelCommandLine := "console=ttyS0" ]} in
  let r := ScheduleWipeDevice io (boot fs) in
  r.1 = (false, Some (MakeFailedError (PathError "write" tmpKernelCommandLine ENOSPC)))
  ∧ ∀ p, p ≠ tmpKernelCommandLine → files r.2 !! p = fs !! p.
Proof.
  intros io fs.
  apply (proj2 (proj2 (proj2 (proj2 (ScheduleWipeDevice_atomic io fs))))
           "console=ttyS0"); vm_compute; reflexivity.
Defined.

(** C7, as the code has it.  After a successful [ScheduleWipeDevice]
    on a boot command-line file with content [C], the file holds
    [TrimSpace C], that is [C] without its leading and its trailing
    white space, followed by one space and the token haos.wipe=1; the
    bytes of [C] between the leading and the trailing white space are
    unchanged. *)
Theorem ScheduleWipeDevice_appends_token (io : IOFaults) (fs : gmap string string) :
  let r := ScheduleWipeDevice io (boot fs) in
  r.1.1 = true →
  ∃ C, fs !! kernelCommandLine = Some C
       ∧ files r.2 !! kernelCommandLine = Some (TrimSpace C +:+ " haos.wipe=1")
       ∧ ∃ lead trail,
           bytes_of C = lead ++ bytes_of (TrimSpace C) ++ trail
           ∧ Spaces lead ∧ Spaces trail.
Proof.
  cbv zeta. intros Hok.
  rewrite ScheduleWipeDevice_unfold in *. cbv zeta in *.
  rewrite ReadFile_disk in *.
  destruct (ReadFile (on_read io) kernelCommandLine (boot fs)).1
    as [data|err] eqn:Hread; [| done].
  apply ReadFile_data in Hread. cbn [boot files] in Hread.
  exists data. split; [done |]. split; [| apply TrimSpace_split].
  destruct (WriteFile _ _ _ _).1 eqn:Hw; [done |].
  apply WriteFile_written in Hw.
  destruct (Rename _ _ _ _) as [[rerr|] d3] eqn:Hrn; [done |].
  cbn [fst snd] in *.
  unfold Rename in Hrn. destruct (on_rename io); [done |].
  rewrite Hw, lookup_insert_eq in Hrn. simplify_eq. cbn [files].
  by rewrite lookup_insert_eq.
Qed.

Lemma ScheduleWipeDevice_appends_token_witness :
  let fs : gmap string string := {[ kernelCommandLine := "console=ttyS0" ]} in
  files (ScheduleWipeDevice no_faults (boot fs)).2 !! kernelCommandLine
  = Some "console=ttyS0 haos.wipe=1".
Proof.
  intros fs.
  destruct (ScheduleWipeDevice_appends_token no_faults fs) as (C & HC & Hnew & _);
    [vm_compute; reflexivity |].
  unfold fs in HC. rewrite lookup_singleton_eq in HC.
  injection HC as <-. exact Hnew.
Defined.

(** C7, as stated, fails on a file that starts with white space: the
    leading space is removed as well, so the new content is not the
    old one with only its trailing white space trimmed. *)
Lemma ScheduleWipeDevice_leading_space :
  let fs : gmap string string := {[ kernelCommandLine := " console=ttyS0" ]} in
  let r := ScheduleWipeDevice no_faults (boot fs) in
  r.1 = (true, None)
  ∧ files r.2 !! kernelCommandLine = Some "console=ttyS0 haos.wipe=1"
  ∧ TrimRightSpace " console=ttyS0" +:+ " haos.wipe=1" = " console=ttyS0 haos.wipe=1"
  ∧ files r.2 !! kernelCommandLine
    ≠ Some (TrimRightSpace " console=ttyS0" +:+ " haos.wipe=1").
Proof. vm_compute. split_and!; try reflexivity. discriminate. Qed.

(** ** SSH keys *)

Lemma ClearSSHAuthKeys_absent (fs : gmap string string) :
  fs !! sshAuthKeyFileName = None →
  ClearSSHAuthKeys None (boot fs)
  = (Some (MakeFailedError (PathError "remove" sshAuthKeyFileName ENOENT)), boot fs).
Proof. intros H. unfold ClearSSHAuthKeys, Remove. cbn [boot files]. by rewrite H. Qed.

(** When the file exists and can be removed, it is removed whole. *)
Lemma ClearSSHAuthKeys_deletes (fs : gmap string string) (keys : string) :
  fs !! sshAuthKeyFileName = Some keys →
  ClearSSHAuthKeys None (boot fs)
  = (None, mkDisk (delete sshAuthKeyFileName fs) [fs; delete sshAuthKeyFileName fs]).
Proof. intros H. unfold ClearSSHAuthKeys, Remove. cbn [boot files]. by rewrite H. Qed.

(** C5, the code at the input where it departs from the claim: with no
    authorized-keys file, [os.Remove] reports that the file does not
    exist, the test [err != nil && os.IsNotExist(err)] holds, and
    [ClearSSHAuthKeys] returns that error instead of success. *)
Theorem ClearSSHAuthKeys_missing_file :
  let r := ClearSSHAuthKeys None (boot ∅) in
  r.1 = Some (MakeFailedError (PathError "remove" sshAuthKeyFileName ENOENT))
  ∧ (DBusError_Error <$> r.1)
    = Some "remove /root/.ssh/authorized_keys: no such file or directory".
Proof. split; reflexivity. Qed.

(** C10. When [os.Remove] fails with an error that is not a
    file-not-exist error, [ClearSSHAuthKeys] returns nil: the error
    does not reach the caller, and the file system is as it was. *)
Theorem ClearSSHAuthKeys_hides_other_errors (fault : option error) (d : Disk)
    (err : error) :
  (Remove fault sshAuthKeyFileName d).1 = Some err →
  IsNotExist err = false →
  ClearSSHAuthKeys fault d = (None, d).
Proof.
  unfold ClearSSHAuthKeys, Remove. intros Hrm Hne.
  destruct fault as [e|]; cbn [fst] in *.
  - simplify_eq. by rewrite Hne.
  - destruct (files d !! sshAuthKeyFileName); cbn [fst] in *; [done |].
    by simplify_eq.
Qed.

Lemma ClearSSHAuthKeys_hides_other_errors_witness :
  let d := boot {[ sshAuthKeyFileName := "ssh-ed25519 AAAAC3Nz root@host" ]} in
  ClearSSHAuthKeys (Some (PathError "remove" sshAuthKeyFileName EACCES)) d = (None, d).
Proof.
  intros d.
  apply (ClearSSHAuthKeys_hides_other_errors _ d
           (PathError "remove" sshAuthKeyFileName EACCES)); reflexivity.
Defined.

(** ** The kernel-module property *)

(** The name handed to [exec.Command] has a directory part, so it is
    taken as the path of the program, as it stands. *)
Lemma getDriverStatus_command (k : Kernel) :
  Command "cat /proc/modules | grep vhci-hcd" [] k
  = mkCmd "cat /proc/modules | grep vhci-hcd"
          ["cat /proc/modules | grep vhci-hcd"] None false.
Proof. reflexivity. Qed.

(** Without an executable file of that very name, the status is false
    whatever the module table holds, and no process is started. *)
Lemma getDriverStatus_no_such_program (k : Kernel) :
  programs k "cat /proc/modules | grep vhci-hcd" = None →
  getDriverStatus k = (Returned false, k).
Proof.
  intros Hnone. unfold getDriverStatus. rewrite getDriverStatus_command.
  unfold Output. cbn [Err Path]. by rewrite Hnone.
Qed.

Lemma LoadKernelDriver_command (k : Kernel) :
  Command moduleLoadCommand [] k = mkCmd "/sbin/modprobe" ["/sbin/modprobe"] None false.
Proof. reflexivity. Qed.

(** When the pipe cannot be created, the handler hands the nil [err],
    not [cerror], to [dbus.MakeFailedError], and panics there. *)
Lemma LoadKernelDriver_setup_failure (cerror : error) (iface name : string)
    (v : bool) (s : Service) :
  (LoadKernelDriver (Some cerror) (mkChange iface name (VBool v)) s).1
  = Panicked "runtime error: invalid memory address or nil pointer dereference".
Proof.
  unfold LoadKernelDriver. cbn [Value kernel].
  rewrite LoadKernelDriver_command. by destruct v.
Qed.

(** C3, the code at the input where it departs from the claim: on a
    write of true, [LoadKernelDriver] builds the command
    [/sbin/modprobe vhci-hcd] and asks for its standard-input pipe, but
    never starts it.  The kernel, with its record of started
    processes, is as before: no load command is issued.  The package
    variable is true afterwards, and the write is accepted when the
    pipe could be created. *)
Theorem LoadKernelDriver_starts_no_command (pipe : option error) (s : Service) :
  let r := LoadKernelDriver pipe (mkChange ifaceName "LoadUSBIP" (VBool true)) s in
  kernel r.2 = kernel s
  ∧ spawned (kernel r.2) = spawned (kernel s)
  ∧ loadUSBIP r.2 = true
  ∧ (pipe = None → r.1 = Returned None).
Proof.
  cbv zeta. unfold LoadKernelDriver. cbn [Value kernel].
  rewrite LoadKernelDriver_command. unfold StdinPipe. cbn [Stdin].
  by destruct pipe.
Qed.

(** C8, the code at the input where it departs from the claim: on a
    machine whose module table lists vhci-hcd, [InitializeDBus] sets
    the package variable, and the exported property, to false.  The
    string handed to [exec.Command] is a shell pipeline, but no shell
    runs it: it is looked for as one program file, which does not
    exist, so [getDriverStatus] returns false. *)
Theorem InitializeDBus_misses_loaded_module :
  let k := machine ["vhci-hcd"] in
  let r := InitializeDBus no_bus_faults (mkService false None k) in
  module_loaded "vhci-hcd" k
  ∧ r.1 = Returned ()
  ∧ loadUSBIP r.2 = false
  ∧ exported r.2 = Some false
  ∧ spawned (kernel r.2) = [].
Proof.
  cbv zeta. split; [apply list_elem_of_here |].
  unfold InitializeDBus. cbn [kernel].
  by rewrite getDriverStatus_no_such_program.
Qed.

(** C9, the code at the input where it departs from the claim: when the
    command setup fails, that is when the pipe cannot be created,
    [loadUSBIP] already holds the requested value, as the claim says,
    but [LoadKernelDriver] does not return an error that rejects the
    write.  It hands the nil [err], not [cerror], to
    [dbus.MakeFailedError] and panics there. *)
Theorem LoadKernelDriver_setup_failure_panics (cerror : error)
    (iface name : string) (v : bool) (s : Service) :
  let r := LoadKernelDriver (Some cerror) (mkChange iface name (VBool v)) s in
  r.1 = Panicked "runtime error: invalid memory address or nil pointer dereference"
  ∧ (∀ e, r.1 ≠ Returned (Some e))
  ∧ loadUSBIP r.2 = v.
Proof.
  cbv zeta. unfold LoadKernelDriver. cbn [Value kernel].
  rewrite LoadKernelDriver_command. unfold StdinPipe.
  destruct v; cbn; split_and!; done.
Qed.

(** * Further properties of the package *)

(** ** Device wipe, the remaining paths *)

Lemma format_calls_app (cs1 cs2 : list Call) :
  format_calls (cs1 ++ cs2) = format_calls cs1 ++ format_calls cs2.
Proof. apply omap_app. Qed.

Section WipeFurther.
Context {W : Type} (h : UDisks2Helper W).

Lemma getAndCheck_mounts_fail label w obj w1 err cs :
  GetBusObjectFromLabel h label w = (inl obj, w1) →
  (GetMountPointsString h obj w1).1 = inr err →
  getAndCheckBusObjectFromLabel h label (mkBus w cs)
  = (inr (ErrDBus (MakeFailedError err)),
     mkBus (GetMountPointsString h obj w1).2
           (cs ++ [CallGetBusObjectFromLabel label; CallGetMountPointsString obj])).
Proof.
  intros H1 H2.
  unfold getAndCheckBusObjectFromLabel, callGetBusObjectFromLabel,
    callGetMountPointsString.
  simpl. rewrite H1. simpl.
  destruct (GetMountPointsString h obj w1) as [r w2]. simpl in *. subst r.
  by rewrite <- app_assoc.
Qed.

(** The check of one label, whatever the helper answers: it never
    formats, and it lets a volume through only if the volume resolved
    and reported no mount point. *)
Lemma getAndCheck_sound label w cs :
  let r := getAndCheckBusObjectFromLabel h label (mkBus w cs) in
  format_calls (calls r.2) = format_calls cs
  ∧ ∀ obj, r.1 = inl obj → resolves h label w obj [] (storage r.2).
Proof.
  cbv zeta.
  unfold getAndCheckBusObjectFromLabel, callGetBusObjectFromLabel,
    callGetMountPointsString. cbn [storage calls].
  destruct (GetBusObjectFromLabel h label w) as [[obj|err] w1] eqn:H1;
    cbn [storage calls fst snd].
  2:{ rewrite format_calls_app. cbn. rewrite app_nil_r. split; [done |]. by intros. }
  destruct (GetMountPointsString h obj w1) as [[mps|err] w2] eqn:H2;
    cbn [storage calls fst snd].
  2:{ rewrite !format_calls_app. cbn. rewrite !app_nil_r. split; [done |]. by intros. }
  destruct mps as [|mp mps]; simpl.
  - rewrite !format_calls_app. cbn. rewrite !app_nil_r. split; [done |].
    intros ? [= <-]. by exists w1.
  - rewrite !format_calls_app. cbn. rewrite !app_nil_r. split; [done |]. by intros.
Qed.

(** X1. When the data volume resolves unmounted but the overlay volume
    reports a mount point, [WipeDevice] fails with a message containing
    the overlay label and every mount point, and neither volume has
    been formatted: both checks come before the first format. *)
Theorem WipeDevice_overlay_mounted w objd w1 objo mps w2 :
  resolves h labelDataFileSystem w objd [] w1 →
  resolves h labelOverlayFileSystem w1 objo mps w2 →
  mps ≠ [] →
  let r := WipeDevice h (mkBus w []) in
  ∃ e, r.1 = (false, Some e)
       ∧ Contains (DBusError_Error e) labelOverlayFileSystem
       ∧ (∀ mp, mp ∈ mps → Contains (DBusError_Error e) mp)
       ∧ format_calls (calls r.2) = []
       ∧ storage r.2 = w2.
Proof.
  intros Hd Ho Hne. cbv zeta.
  exists (MakeFailedError (mountedError labelOverlayFileSystem mps)).
  unfold WipeDevice.
  rewrite (getAndCheck_resolves _ _ _ _ _ _ _ Hd).
  rewrite (getAndCheck_resolves _ _ _ _ _ _ _ Ho).
  destruct mps as [|mp0 mps0]; [done |]. cbn [fst snd calls storage].
  split_and!; try done.
  - exists ("Device with label " +:+ dquote),
      (dquote +:+ " is mounted at " +:+ fmt_strings (mp0 :: mps0) +:+ ", aborting.").
    cbn [DBusError_Error MakeFailedError mountedError Body Error].
    by rewrite !append_assoc.
  - intros mp Hin.
    cbn [DBusError_Error MakeFailedError mountedError Body Error].
    rewrite <- (append_assoc _ dquote), <- (append_assoc _ labelOverlayFileSystem),
      <- (append_assoc _ dquote), <- (append_assoc _ " is mounted at ").
    apply Contains_inside. unfold fmt_strings.
    apply Contains_inside. by apply Contains_join_space.
Qed.

(** X2. When the mount-point query fails, for the data volume or, the
    data volume having passed its check, for the overlay volume,
    [WipeDevice] fails with the message of that error and issues no
    format call. *)
Theorem WipeDevice_mount_query_fails w err :
  (∃ obj w1, GetBusObjectFromLabel h labelDataFileSystem w = (inl obj, w1)
             ∧ (GetMountPointsString h obj w1).1 = inr err)
  ∨ (∃ objd w1 objo w2,
       resolves h labelDataFileSystem w objd [] w1
       ∧ GetBusObjectFromLabel h labelOverlayFileSystem w1 = (inl objo, w2)
       ∧ (GetMountPointsString h objo w2).1 = inr err) →
  let r := WipeDevice h (mkBus w []) in
  ∃ e, r.1 = (false, Some e)
       ∧ DBusError_Error e = Error err
       ∧ format_calls (calls r.2) = [].
Proof.
  intros [(obj & w1 & H1 & H2) | (objd & w1 & objo & w2 & Hd & H1 & H2)]; cbv zeta;
    exists (MakeFailedError (ErrDBus (MakeFailedError err))); unfold WipeDevice.
  - by rewrite (getAndCheck_mounts_fail _ _ _ _ _ _ H1 H2).
  - rewrite (getAndCheck_resolves _ _ _ _ _ _ _ Hd).
    by rewrite (getAndCheck_mounts_fail _ _ _ _ _ _ H1 H2).
Qed.

(** X3. Whatever the helper answers, if [WipeDevice] issues any format
    call at all, then both labels resolved and both volumes reported
    no mount point beforehand; the calls are the data volume alone, or
    the data volume then the overlay volume, each as ext4 under its own
    label. *)
Theorem WipeDevice_formats_only_checked_volumes w :
  let r := WipeDevice h (mkBus w []) in
  format_calls (calls r.2) ≠ [] →
  ∃ objd w1 objo w2,
    resolves h labelDataFileSystem w objd [] w1
    ∧ resolves h labelOverlayFileSystem w1 objo [] w2
    ∧ (format_calls (calls r.2) = [(objd, "ext4", labelDataFileSystem)]
       ∨ format_calls (calls r.2)
         = [(objd, "ext4", labelDataFileSystem);
            (objo, "ext4", labelOverlayFileSystem)]).
Proof.
  cbv zeta. unfold WipeDevice.
  pose proof (getAndCheck_sound labelDataFileSystem w []) as [Hf1 Hr1].
  destruct (getAndCheckBusObjectFromLabel h labelDataFileSystem (mkBus w []))
    as [[objd|err] [w1 cs1]]; cbn [fst snd calls storage] in *; [| done].
  specialize (Hr1 _ eq_refl).
  pose proof (getAndCheck_sound labelOverlayFileSystem w1 cs1) as [Hf2 Hr2].
  destruct (getAndCheckBusObjectFromLabel h labelOverlayFileSystem (mkBus w1 cs1))
    as [[objo|err] [w2 cs2]]; cbn [fst snd calls storage] in *.
  2:{ intros Hne. exfalso. apply Hne. by rewrite Hf2, Hf1. }
  specialize (Hr2 _ eq_refl). intros _.
  exists objd, w1, objo, w2. split; [done |]. split; [done |].
  unfold callFormatPartition. cbn [storage calls].
  destruct (FormatPartition h objd "ext4" labelDataFileSystem w2) as [[e1|] w3];
    cbn [fst snd calls storage].
  - left. rewrite format_calls_app, Hf2, Hf1. done.
  - destruct (FormatPartition h objo "ext4" labelOverlayFileSystem w3) as [[e2|] w4];
      cbn [fst snd calls]; right;
      rewrite !format_calls_app, Hf2, Hf1; done.
Qed.

(** X4. The two results of [WipeDevice] always agree: either true with
    a nil error, after exactly two format calls, or false with a
    [dbus.Error] of the Failed kind carrying one message, after at
    most two format calls. *)
Theorem WipeDevice_flag_and_error_agree w :
  let r := WipeDevice h (mkBus w []) in
  (r.1 = (true, None) ∧ length (format_calls (calls r.2)) = 2)
  ∨ (∃ e msg, r.1 = (false, Some e)
              ∧ e = mkDBusError "org.freedesktop.DBus.Error.Failed" [msg]
              ∧ length (format_calls (calls r.2)) ≤ 2).
Proof.
  cbv zeta. unfold WipeDevice.
  pose proof (getAndCheck_sound labelDataFileSystem w []) as [Hf1 _].
  destruct (getAndCheckBusObjectFromLabel h labelDataFileSystem (mkBus w []))
    as [[objd|err] [w1 cs1]]; cbn [fst snd calls storage] in *.
  2:{ right. eexists _, _. split; [done |]. split; [done |]. rewrite Hf1. cbn. lia. }
  pose proof (getAndCheck_sound labelOverlayFileSystem w1 cs1) as [Hf2 _].
  destruct (getAndCheckBusObjectFromLabel h labelOverlayFileSystem (mkBus w1 cs1))
    as [[objo|err] [w2 cs2]]; cbn [fst snd calls storage] in *.
  2:{ right. eexists _, _. split; [done |]. split; [done |].
      rewrite Hf2, Hf1. cbn. lia. }
  unfold callFormatPartition. cbn [storage calls].
  destruct (FormatPartition h objd "ext4" labelDataFileSystem w2) as [[e1|] w3];
    cbn [fst snd calls storage].
  { right. eexists _, _. split; [done |]. split; [done |].
    rewrite format_calls_app, Hf2, Hf1. cbn. lia. }
  destruct (FormatPartition h objo "ext4" labelOverlayFileSystem w3) as [[e2|] w4];
    cbn [fst snd calls].
  - right. eexists _, _. split; [done |]. split; [done |].
    rewrite !format_calls_app, Hf2, Hf1. cbn. lia.
  - left. split; [done |]. rewrite !format_calls_app, Hf2, Hf1. done.
Qed.
End WipeFurther.

Lemma WipeDevice_overlay_mounted_witness :
  let vs := [dataVolume [] false; overlayVolume ["/mnt/overlay"] false] in
  let r := WipeDevice volumesHelper (mkBus vs []) in
  ∃ e, r.1 = (false, Some e)
       ∧ Contains (DBusError_Error e) labelOverlayFileSystem
       ∧ (∀ mp, mp ∈ ["/mnt/overlay"] → Contains (DBusError_Error e) mp)
       ∧ format_calls (calls r.2) = []
       ∧ storage r.2 = vs.
Proof.
  intros vs.
  apply (WipeDevice_overlay_mounted volumesHelper vs
           (vobject (dataVolume [] false)) vs
           (vobject (overlayVolume [] false)) ["/mnt/overlay"] vs).
  - exists vs. split; reflexivity.
  - exists vs. split; reflexivity.
  - discriminate.
Defined.

Lemma WipeDevice_mount_query_fails_witness :
  let vs := [dataVolume [] false; overlayVolume [] false] in
  let r := WipeDevice volumesHelperNoMounts (mkBus vs []) in
  ∃ e, r.1 = (false, Some e)
       ∧ DBusError_Error e = "Timeout was reached"
       ∧ format_calls (calls r.2) = [].
Proof.
  intros vs.
  apply (WipeDevice_mount_query_fails volumesHelperNoMounts vs
           (errorString "Timeout was reached")).
  left. exists (vobject (dataVolume [] false)), vs. split; reflexivity.
Defined.

Lemma WipeDevice_formats_only_checked_volumes_witness :
  let vs := [dataVolume [] true; overlayVolume [] false] in
  let r := WipeDevice volumesHelper (mkBus vs []) in
  ∃ objd w1 objo w2,
    resolves volumesHelper labelDataFileSystem vs objd [] w1
    ∧ resolves volumesHelper labelOverlayFileSystem w1 objo [] w2
    ∧ (format_calls (calls r.2) = [(objd, "ext4", labelDataFileSystem)]
       ∨ format_calls (calls r.2)
         = [(objd, "ext4", labelDataFileSystem);
            (objo, "ext4", labelOverlayFileSystem)]).
Proof.
  intros vs. apply (WipeDevice_formats_only_checked_volumes volumesHelper vs).
  discriminate.
Defined.

(** ** Scheduled wipe, the remaining paths *)

Lemma bytes_of_append (a b : string) : bytes_of (a +:+ b) = bytes_of a ++ bytes_of b.
Proof.
  induction a as [|x a IH]; [done |]. rewrite append_cons. cbn. by rewrite IH.
Qed.

Lemma string_of_app (l1 l2 : list ascii) :
  string_of (l1 ++ l2) = string_of l1 +:+ string_of l2.
Proof. induction l1 as [|x l1 IH]; [done |]. cbn. by rewrite IH. Qed.

Lemma bytes_of_nil (s : string) : bytes_of s = [] → s = EmptyString.
Proof. by destruct s. Qed.

(** A run of white space is trimmed away whole. *)
Lemma Spaces_trim_left (l : list ascii) : Spaces l → trim_left l = [].
Proof.
  induction 1 as [|a l Ha _ IH|a b l Hab _ IH|a b c l Habc _ IH]; [done | | |].
  - cbn [trim_left]. by rewrite Ha.
  - cbn [trim_left].
    assert (ascii_space a = false) as ->.
    { unfold ascii_space, utf8_space2 in *.
      apply bool_decide_eq_true in Hab. apply bool_decide_eq_false. lia. }
    by rewrite Hab.
  - cbn [trim_left].
    assert (ascii_space a = false) as ->.
    { unfold ascii_space, utf8_space3 in *.
      apply bool_decide_eq_true in Habc. apply bool_decide_eq_false. lia. }
    assert (utf8_space2 a b = false) as ->.
    { unfold utf8_space2, utf8_space3 in *.
      apply bool_decide_eq_true in Habc. apply bool_decide_eq_false. lia. }
    by rewrite Habc.
Qed.

Lemma starts_clean_trim_left (s : list ascii) : starts_clean (trim_left s).
Proof.
  induction s as [s IH] using (induction_ltof1 _ (@length ascii)).
  unfold ltof in IH.
  destruct s as [|a s1]; [done |].
  cbn [trim_left]. destruct (ascii_space a) eqn:Ha; [apply IH; simpl; lia |].
  destruct s1 as [|b s2]; [done |].
  destruct (utf8_space2 a b) eqn:Hab; [apply IH; simpl; lia |].
  destruct s2 as [|c s3]; [done |].
  destruct (utf8_space3 a b c) eqn:Habc; [apply IH; simpl; lia |].
  done.
Qed.

Lemma starts_clean_prefix (p q : list ascii) : starts_clean (p ++ q) → starts_clean p.
Proof.
  destruct p as [|a [|b [|c p]]]; [done | | | done].
  - destruct q as [|b q]; cbn; [done |]. by intros [? _].
  - destruct q as [|c q]; cbn; [done |]. by intros [? [? _]].
Qed.

Lemma trim_left_clean (s : list ascii) : starts_clean s → trim_left s = s.
Proof.
  destruct s as [|a [|b [|c s]]]; cbn [starts_clean trim_left]; [done | | |].
  - by intros [-> _].
  - by intros [-> [-> _]].
  - by intros [-> [-> ->]].
Qed.

(** A clean, non-empty byte string stays clean when the directive
    [ haos.wipe=1] follows it. *)
Lemma starts_clean_token (t : list ascii) :
  starts_clean t → t ≠ [] → starts_clean (t ++ bytes_of " haos.wipe=1").
Proof.
  destruct t as [|a [|b [|c t]]]; cbn [starts_clean app]; [done | | |].
  - intros [Ha _] _. cbn. split; [done |]. split.
    + unfold utf8_space2. apply bool_decide_eq_false.
      change (nat_of_ascii " ") with 32. lia.
    + unfold utf8_space3. apply bool_decide_eq_false.
      change (nat_of_ascii " ") with 32. lia.
  - intros [Ha [Hab _]] _. cbn. split; [done |]. split; [done |].
    unfold utf8_space3. apply bool_decide_eq_false.
    change (nat_of_ascii " ") with 32. lia.
  - by intros.
Qed.

(** Nothing is trimmed behind the directive: it ends in the digit 1. *)
Lemma trim_right_token (l : list ascii) :
  trim_right (l ++ bytes_of " haos.wipe=1") = l ++ bytes_of " haos.wipe=1".
Proof.
  unfold trim_right. rewrite rev_app_distr.
  change (rev (bytes_of " haos.wipe=1")) with (bytes_of "1=epiw.soah ").
  assert (trim_left_rev (bytes_of "1=epiw.soah " ++ rev l)
          = bytes_of "1=epiw.soah " ++ rev l) as ->.
  { cbn [list_ascii_of_string app trim_left_rev].
    assert (ascii_space "1" = false) as -> by done.
    assert (utf8_space2 "=" "1" = false) as -> by done.
    assert (utf8_space3 "e" "=" "1" = false) as -> by done.
    done. }
  rewrite rev_app_distr, rev_involutive. done.
Qed.

(** On content that is not blank, trimming again after the directive
    was appended changes nothing. *)
Lemma TrimSpace_token (C : string) :
  TrimSpace C ≠ EmptyString →
  TrimSpace (TrimSpace C +:+ " haos.wipe=1") = TrimSpace C +:+ " haos.wipe=1".
Proof.
  intros Hne. unfold TrimSpace at 1.
  rewrite bytes_of_append.
  assert (starts_clean (bytes_of (TrimSpace C))) as Hclean.
  { unfold TrimSpace. rewrite list_ascii_of_string_of_list_ascii.
    destruct (trim_right_split (trim_left (bytes_of C))) as (trail & Heq & _).
    apply (starts_clean_prefix _ trail). rewrite <- Heq.
    apply starts_clean_trim_left. }
  rewrite trim_left_clean.
  2:{ apply starts_clean_token; [done |]. intros Hnil. by apply bytes_of_nil in Hnil. }
  rewrite trim_right_token, string_of_app.
  by rewrite string_of_list_ascii_of_string.
Qed.

(** Blank content trims to nothing. *)
Lemma TrimSpace_blank (C : string) : Spaces (bytes_of C) → TrimSpace C = EmptyString.
Proof. intros Hsp. unfold TrimSpace. by rewrite Spaces_trim_left. Qed.

(** The call step by step when nothing fails. *)
Lemma ScheduleWipeDevice_ok (io : IOFaults) (d : Disk) (C : string) :
  on_read io = None → files d !! kernelCommandLine = Some C →
  on_write io = WriteSucceeds → on_rename io = None →
  (ScheduleWipeDevice io d).1 = (true, None)
  ∧ files (ScheduleWipeDevice io d).2
    = <[kernelCommandLine := TrimSpace C +:+ " haos.wipe=1"]>
        (delete tmpKernelCommandLine (files d)).
Proof.
  intros Hrd HC Hwr Hrn.
  unfold ScheduleWipeDevice, ReadFile, WriteFile, Rename, write_bytes.
  rewrite Hrd, HC, Hwr, Hrn. cbn [files]. rewrite lookup_insert_eq.
  cbn [fst snd files]. by rewrite substring_full, delete_insert_eq.
Qed.

Lemma ScheduleWipeDevice_ok_inv (io : IOFaults) (d : Disk) :
  (ScheduleWipeDevice io d).1.1 = true →
  on_read io = None ∧ is_Some (files d !! kernelCommandLine)
  ∧ on_write io = WriteSucceeds ∧ on_rename io = None.
Proof.
  unfold ScheduleWipeDevice, ReadFile, WriteFile, Rename, write_bytes.
  destruct (on_read io); [done |].
  destruct (files d !! kernelCommandLine); [| done].
  destruct (on_write io); [| done | done]. cbn [files]. rewrite lookup_insert_eq.
  destruct (on_rename io); [done |]. by intros _.
Qed.

(** X5. When the read and the write succeed but the rename fails,
    [ScheduleWipeDevice] returns the rename error; the boot file keeps
    its content, and the temporary file is left behind holding the
    complete new content. *)
Theorem ScheduleWipeDevice_rename_fails (io : IOFaults) (fs : gmap string string)
    (C : string) (err : error) :
  on_read io = None → fs !! kernelCommandLine = Some C →
  on_write io = WriteSucceeds → on_rename io = Some err →
  let r := ScheduleWipeDevice io (boot fs) in
  r.1 = (false, Some (MakeFailedError err))
  ∧ files r.2 = <[tmpKernelCommandLine := TrimSpace C +:+ " haos.wipe=1"]> fs
  ∧ files r.2 !! kernelCommandLine = Some C.
Proof.
  intros Hrd HC Hwr Hrn. cbv zeta.
  unfold ScheduleWipeDevice, ReadFile, WriteFile, Rename, write_bytes, boot.
  cbn [files]. rewrite Hrd, HC, Hwr, Hrn. cbn [fst snd files].
  rewrite substring_full. split_and!; [done | done |].
  by rewrite lookup_insert_ne.
Qed.

(** X6. When the boot command-line file does not exist,
    [ScheduleWipeDevice] fails with the open error of that path and
    writes nothing: no temporary file is created. *)
Theorem ScheduleWipeDevice_missing_boot_file (io : IOFaults) (fs : gmap string string) :
  on_read io = None → fs !! kernelCommandLine = None →
  let r := ScheduleWipeDevice io (boot fs) in
  (DBusError_Error <$> r.1.2)
  = Some "open /mnt/boot/cmdline.txt: no such file or directory"
  ∧ r.1.1 = false
  ∧ r.2 = boot fs.
Proof.
  intros Hrd HC. cbv zeta. unfold ScheduleWipeDevice, ReadFile, boot.
  cbn [files]. by rewrite Hrd, HC.
Qed.

(** X7. After a successful [ScheduleWipeDevice] the temporary file no
    longer exists, the boot file holds the new content, and every
    other file is untouched. *)
Theorem ScheduleWipeDevice_success_state (io : IOFaults) (fs : gmap string string) :
  let r := ScheduleWipeDevice io (boot fs) in
  r.1.1 = true →
  ∃ C, fs !! kernelCommandLine = Some C
       ∧ files r.2
         = <[kernelCommandLine := TrimSpace C +:+ " haos.wipe=1"]>
             (delete tmpKernelCommandLine fs)
       ∧ files r.2 !! tmpKernelCommandLine = None
       ∧ ∀ p, p ≠ kernelCommandLine → p ≠ tmpKernelCommandLine →
              files r.2 !! p = fs !! p.
Proof.
  cbv zeta. intros Hok.
  destruct (ScheduleWipeDevice_ok_inv _ _ Hok) as (Hrd & [C HC] & Hwr & Hrn).
  cbn [boot files] in HC.
  destruct (ScheduleWipeDevice_ok io (boot fs) C Hrd HC Hwr Hrn) as [_ Hfiles].
  cbn [boot files] in Hfiles.
  exists C. rewrite Hfiles. split_and!; [done | done | |].
  - rewrite lookup_insert_ne; [| by apply not_eq_sym, tmp_is_not_boot].
    apply lookup_delete_eq.
  - intros p Hp1 Hp2. by rewrite lookup_insert_ne, lookup_delete_ne.
Qed.

(** X9. [ScheduleWipeDevice] succeeds exactly when the boot file
    exists and the read, the write and the rename all succeed; its
    flag is true exactly when its error is nil. *)
Theorem ScheduleWipeDevice_succeeds_iff (io : IOFaults) (fs : gmap string string) :
  let r := ScheduleWipeDevice io (boot fs) in
  (r.1 = (true, None)
   ↔ on_read io = None ∧ is_Some (fs !! kernelCommandLine)
     ∧ on_write io = WriteSucceeds ∧ on_rename io = None)
  ∧ (r.1.1 = true ↔ r.1.2 = None).
Proof.
  cbv zeta. split; [split |].
  - intros Hr. apply (ScheduleWipeDevice_ok_inv io (boot fs)). by rewrite Hr.
  - intros (Hrd & [C HC] & Hwr & Hrn).
    by destruct (ScheduleWipeDevice_ok io (boot fs) C Hrd HC Hwr Hrn) as [-> _].
  - rewrite ScheduleWipeDevice_unfold. cbv zeta.
    destruct (ReadFile _ _ _).1; [| done].
    destruct (WriteFile _ _ _ _).1; [done |].
    by destruct (Rename _ _ _ _).1.
Qed.

(** X10. The directive is not deduplicated: two successful calls on a
    boot file that is not blank leave its trimmed content followed by
    the directive twice. *)
Theorem ScheduleWipeDevice_twice (fs : gmap string string) (C : string) :
  fs !! kernelCommandLine = Some C →
  TrimSpace C ≠ EmptyString →
  let r1 := ScheduleWipeDevice no_faults (boot fs) in
  let r2 := ScheduleWipeDevice no_faults r1.2 in
  r2.1 = (true, None)
  ∧ files r2.2 !! kernelCommandLine
    = Some (TrimSpace C +:+ " haos.wipe=1" +:+ " haos.wipe=1").
Proof.
  intros HC Hne. cbv zeta.
  destruct (ScheduleWipeDevice_ok no_faults (boot fs) C eq_refl HC eq_refl eq_refl)
    as [_ Hf1].
  assert (files (ScheduleWipeDevice no_faults (boot fs)).2 !! kernelCommandLine
          = Some (TrimSpace C +:+ " haos.wipe=1")) as HC1
    by (by rewrite Hf1, lookup_insert_eq).
  destruct (ScheduleWipeDevice_ok no_faults _ _ eq_refl HC1 eq_refl eq_refl)
    as [Hr2 Hf2].
  split; [done |].
  by rewrite Hf2, lookup_insert_eq, TrimSpace_token, append_assoc.
Qed.

(** X11. On a boot file made of white space only (or empty), a
    successful call leaves the directive preceded by its separating
    space, and nothing else. *)
Theorem ScheduleWipeDevice_blank_file (fs : gmap string string) (C : string) :
  fs !! kernelCommandLine = Some C →
  Spaces (bytes_of C) →
  let r := ScheduleWipeDevice no_faults (boot fs) in
  r.1 = (true, None)
  ∧ files r.2 !! kernelCommandLine = Some " haos.wipe=1".
Proof.
  intros HC Hsp. cbv zeta.
  destruct (ScheduleWipeDevice_ok no_faults (boot fs) C eq_refl HC eq_refl eq_refl)
    as [Hr Hf].
  split; [done |]. by rewrite Hf, lookup_insert_eq, TrimSpace_blank.
Qed.

Lemma ScheduleWipeDevice_rename_fails_witness :
  let err := LinkError "rename" tmpKernelCommandLine kernelCommandLine EROFS in
  let io := mkIOFaults None WriteSucceeds (Some err) in
  let fs : gmap string string := {[ kernelCommandLine := "console=ttyS0 " ]} in
  let r := ScheduleWipeDevice io (boot fs) in
  r.1 = (false, Some (MakeFailedError err))
  ∧ files r.2 = <[tmpKernelCommandLine := "console=ttyS0 haos.wipe=1"]> fs
  ∧ files r.2 !! kernelCommandLine = Some "console=ttyS0 ".
Proof.
  intros err io fs.
  apply (ScheduleWipeDevice_rename_fails io fs "console=ttyS0 " err);
    reflexivity.
Defined.

Lemma ScheduleWipeDevice_missing_boot_file_witness :
  let r := ScheduleWipeDevice no_faults (boot ∅) in
  (DBusError_Error <$> r.1.2)
  = Some "open /mnt/boot/cmdline.txt: no such file or directory"
  ∧ r.1.1 = false
  ∧ r.2 = boot ∅.
Proof.
  apply (ScheduleWipeDevice_missing_boot_file no_faults ∅); reflexivity.
Defined.

Lemma ScheduleWipeDevice_success_state_witness :
  let fs : gmap string string :=
    {[ kernelCommandLine := "console=ttyS0"; tmpKernelCommandLine := "stale" ]} in
  let r := ScheduleWipeDevice no_faults (boot fs) in
  ∃ C, fs !! kernelCommandLine = Some C
       ∧ files r.2
         = <[kernelCommandLine := TrimSpace C +:+ " haos.wipe=1"]>
             (delete tmpKernelCommandLine fs)
       ∧ files r.2 !! tmpKernelCommandLine = None
       ∧ ∀ p, p ≠ kernelCommandLine → p ≠ tmpKernelCommandLine →
              files r.2 !! p = fs !! p.
Proof.
  intros fs. apply (ScheduleWipeDevice_success_state no_faults fs).
  vm_compute. reflexivity.
Defined.

Lemma ScheduleWipeDevice_twice_witness :
  let fs : gmap string string := {[ kernelCommandLine := "console=ttyS0" ]} in
  let r1 := ScheduleWipeDevice no_faults (boot fs) in
  let r2 := ScheduleWipeDevice no_faults r1.2 in
  r2.1 = (true, None)
  ∧ files r2.2 !! kernelCommandLine
    = Some "console=ttyS0 haos.wipe=1 haos.wipe=1".
Proof.
  intros fs.
  apply (ScheduleWipeDevice_twice fs "console=ttyS0"); [reflexivity | discriminate].
Defined.

Lemma ScheduleWipeDevice_blank_file_witness :
  let fs : gmap string string := {[ kernelCommandLine := "  " ]} in
  let r := ScheduleWipeDevice no_faults (boot fs) in
  r.1 = (true, None)
  ∧ files r.2 !! kernelCommandLine = Some " haos.wipe=1".
Proof.
  intros fs. apply (ScheduleWipeDevice_blank_file fs "  "); [reflexivity |].
  apply Spaces_1; [reflexivity |]. apply Spaces_1; [reflexivity |]. apply Spaces_nil.
Defined.

(** ** SSH keys, the remaining paths *)

(** The call step by step when nothing fails. *)
Lemma AddSSHAuthKey_ok (newKey : string) (d : Disk) :
  (AddSSHAuthKey None None newKey d).1 = None
  ∧ files (AddSSHAuthKey None None newKey d).2
    = <[sshAuthKeyFileName :=
          default EmptyString (files d !! sshAuthKeyFileName)
          +:+ newKey +:+ newline]> (files d).
Proof.
  unfold AddSSHAuthKey, OpenFileAppend, WriteString.
  destruct (files d !! sshAuthKeyFileName) as [old|] eqn:Hold;
    cbn [fst snd files fmap option_fmap option_map].
  - by rewrite Hold, substring_full.
  - rewrite lookup_insert_eq, substring_full. cbn [default].
    by rewrite insert_insert_eq.
Qed.

(** X12. Without failure, [AddSSHAuthKey] returns nil and the
    authorized-keys file holds its former content, or nothing if it
    did not exist, followed by the key and a line feed; no other file
    changes. *)
Theorem AddSSHAuthKey_appends (newKey : string) (fs : gmap string string) :
  let r := AddSSHAuthKey None None newKey (boot fs) in
  r.1 = None
  ∧ files r.2 !! sshAuthKeyFileName
    = Some (default EmptyString (fs !! sshAuthKeyFileName) +:+ newKey +:+ newline)
  ∧ ∀ p, p ≠ sshAuthKeyFileName → files r.2 !! p = fs !! p.
Proof.
  cbv zeta. destruct (AddSSHAuthKey_ok newKey (boot fs)) as [-> ->].
  cbn [boot files]. split_and!; [done | by rewrite lookup_insert_eq |].
  intros p Hp. by rewrite lookup_insert_ne.
Qed.

(** X13. [AddSSHAuthKey] only ever appends: whatever fails, at every
    moment of the call the other files are as before and the
    authorized-keys file is as before or holds its former content
    followed by a prefix of the new line. *)
Theorem AddSSHAuthKey_never_loses_keys (open : option error)
    (write : option (nat * error)) (newKey : string) (fs : gmap string string) :
  let r := AddSSHAuthKey open write newKey (boot fs) in
  let old := default EmptyString (fs !! sshAuthKeyFileName) in
  last (history r.2) = Some (files r.2)
  ∧ ∀ fs', fs' ∈ history r.2 →
      (∀ p, p ≠ sshAuthKeyFileName → fs' !! p = fs !! p)
      ∧ (fs' !! sshAuthKeyFileName = fs !! sshAuthKeyFileName
         ∨ ∃ i, fs' !! sshAuthKeyFileName
                = Some (old +:+ substring 0 i (newKey +:+ newline))).
Proof.
  cbv zeta. unfold AddSSHAuthKey, OpenFileAppend, WriteString, boot.
  destruct open as [oerr|]; cbn [files history fst snd].
  { split; [done |]. intros fs' ->%list_elem_of_singleton. split; [done | by left]. }
  set (line := newKey +:+ newline).
  set (n := match write with
            | Some (n, _) => n `min` String.length line
            | None => String.length line
            end).
  assert (∀ (m : gmap string string) hist (old : string),
            last (hist ++ ((λ i, <[sshAuthKeyFileName := old +:+ substring 0 i line]> m)
                           <$> seq 1 n)) = Some (<[sshAuthKeyFileName :=
                                                     old +:+ substring 0 n line]> m)
            ∨ (n = 0 ∧ last (hist ++ ((λ i, <[sshAuthKeyFileName :=
                                                old +:+ substring 0 i line]> m)
                                      <$> seq 1 n)) = last hist)) as Hlast.
  { intros m hist old. destruct n as [|k]; [right; split; [done |]; by rewrite app_nil_r |].
    left. rewrite seq_S, fmap_app, app_assoc. cbn [fmap list_fmap]. by rewrite last_snoc. }
  assert (∀ s : string, substring 0 0 s = EmptyString) as Hsub0 by (by intros []).
  destruct (fs !! sshAuthKeyFileName) as [old|] eqn:Hold;
    cbn [files history fst snd default].
  - rewrite Hold. cbn [default].
    assert (∀ fs', fs' ∈ [fs] ++ ((λ i, <[sshAuthKeyFileName := old +:+ substring 0 i line]> fs)
                                  <$> seq 1 n) →
              (∀ p, p ≠ sshAuthKeyFileName → fs' !! p = fs !! p)
              ∧ (fs' !! sshAuthKeyFileName = Some old
                 ∨ ∃ i, fs' !! sshAuthKeyFileName = Some (old +:+ substring 0 i line)))
      as Hall.
    { intros fs' [->%list_elem_of_singleton | (i & -> & _)%list_elem_of_fmap]%elem_of_app.
      - split; [done | by left].
      - split; [intros p Hp; by rewrite lookup_insert_ne |].
        right. exists i. by rewrite lookup_insert_eq. }
    assert (last ([fs] ++ ((λ i, <[sshAuthKeyFileName := old +:+ substring 0 i line]> fs)
                           <$> seq 1 n))
            = Some (<[sshAuthKeyFileName := old +:+ substring 0 n line]> fs)) as Hl.
    { destruct (Hlast fs [fs] old) as [H | [H0 H]]; [done |].
      rewrite H, H0, Hsub0, append_nil_r. cbn. f_equal. symmetry. by apply insert_id. }
    destruct write as [[k werr]|]; cbn [fmap option_fmap option_map fst snd files history];
      (split; [exact Hl | exact Hall]).
  - rewrite lookup_insert_eq. cbn [default].
    rewrite insert_insert_eq.
    assert (∀ fs', fs' ∈ ([fs] ++ [<[sshAuthKeyFileName := EmptyString]> fs])
                       ++ ((λ i, <[sshAuthKeyFileName :=
                                     EmptyString +:+ substring 0 i line]>
                                   (<[sshAuthKeyFileName := EmptyString]> fs))
                           <$> seq 1 n) →
              (∀ p, p ≠ sshAuthKeyFileName → fs' !! p = fs !! p)
              ∧ (fs' !! sshAuthKeyFileName = None
                 ∨ ∃ i, fs' !! sshAuthKeyFileName
                        = Some (EmptyString +:+ substring 0 i line))) as Hall.
    { intros fs' [[->%list_elem_of_singleton | ->%list_elem_of_singleton]%elem_of_app
                 | (i & -> & _)%list_elem_of_fmap]%elem_of_app.
      - split; [done | by left].
      - split; [intros p Hp; by rewrite lookup_insert_ne |].
        right. exists 0. by rewrite lookup_insert_eq, Hsub0.
      - split; [intros p Hp; by rewrite !lookup_insert_ne |].
        right. exists i. by rewrite lookup_insert_eq. }
    assert (last (([fs] ++ [<[sshAuthKeyFileName := EmptyString]> fs])
                  ++ ((λ i, <[sshAuthKeyFileName := EmptyString +:+ substring 0 i line]>
                              (<[sshAuthKeyFileName := EmptyString]> fs))
                      <$> seq 1 n))
            = Some (<[sshAuthKeyFileName := EmptyString +:+ substring 0 n line]> fs))
      as Hl.
    { destruct (Hlast (<[sshAuthKeyFileName := EmptyString]> fs)
                  ([fs] ++ [<[sshAuthKeyFileName := EmptyString]> fs]) EmptyString)
        as [H | [H0 H]].
      - by rewrite H, insert_insert_eq.
      - rewrite H, H0, Hsub0. done. }
    destruct write as [[k werr]|]; cbn [fmap option_fmap option_map fst snd files history];
      (split; [exact Hl | exact Hall]).
Qed.

(** X14. Two successful calls of [AddSSHAuthKey] leave the two keys
    in call order, one per line, after the former content. *)
Theorem AddSSHAuthKey_twice (key1 key2 : string) (fs : gmap string string) :
  let r1 := AddSSHAuthKey None None key1 (boot fs) in
  let r2 := AddSSHAuthKey None None key2 r1.2 in
  r2.1 = None
  ∧ files r2.2 !! sshAuthKeyFileName
    = Some (default EmptyString (fs !! sshAuthKeyFileName)
            +:+ key1 +:+ newline +:+ key2 +:+ newline).
Proof.
  cbv zeta.
  destruct (AddSSHAuthKey_ok key2 (AddSSHAuthKey None None key1 (boot fs)).2)
    as [-> ->].
  destruct (AddSSHAuthKey_ok key1 (boot fs)) as [_ ->]. cbn [boot files].
  split; [done |]. rewrite lookup_insert_eq. cbn [default].
  rewrite lookup_insert_eq. cbn [default]. unfold id. by rewrite !append_assoc.
Qed.

(** X15. [ClearSSHAuthKeys] after a successful [AddSSHAuthKey] returns
    nil and removes the file, whatever it held; a second
    [ClearSSHAuthKeys] then returns the not-exist error and changes
    nothing. *)
Theorem ClearSSHAuthKeys_after_add (newKey : string) (fs : gmap string string) :
  let r1 := AddSSHAuthKey None None newKey (boot fs) in
  let r2 := ClearSSHAuthKeys None r1.2 in
  let r3 := ClearSSHAuthKeys None r2.2 in
  r2.1 = None
  ∧ files r2.2 = delete sshAuthKeyFileName fs
  ∧ r3.1 = Some (MakeFailedError (PathError "remove" sshAuthKeyFileName ENOENT))
  ∧ files r3.2 = files r2.2.
Proof.
  cbv zeta.
  destruct (AddSSHAuthKey_ok newKey (boot fs)) as [_ Hf]. cbn [boot files] in Hf.
  set (d1 := (AddSSHAuthKey None None newKey (boot fs)).2) in *.
  assert (ClearSSHAuthKeys None d1
          = (None, mkDisk (delete sshAuthKeyFileName fs)
                     (history d1 ++ [delete sshAuthKeyFileName fs]))) as ->.
  { unfold ClearSSHAuthKeys, Remove. rewrite Hf, lookup_insert_eq.
    by rewrite delete_insert_eq. }
  cbn [fst snd files]. split_and!; [done | done | |];
    unfold ClearSSHAuthKeys, Remove; cbn [files]; by rewrite lookup_delete_eq.
Qed.

(** X16. [ClearSSHAuthKeys] returns nil exactly when the file was
    there and [os.Remove] succeeded, or when [os.Remove] failed with an
    error other than not-exist.  When [os.Remove] does not fail the
    file is gone afterwards; when it fails nothing changes. *)
Theorem ClearSSHAuthKeys_outcomes (fault : option error) (d : Disk) :
  let r := ClearSSHAuthKeys fault d in
  (r.1 = None
   ↔ (fault = None ∧ is_Some (files d !! sshAuthKeyFileName))
     ∨ ∃ err, fault = Some err ∧ IsNotExist err = false)
  ∧ (fault = None → files r.2 = delete sshAuthKeyFileName (files d))
  ∧ (is_Some fault → r.2 = d).
Proof.
  cbv zeta. unfold ClearSSHAuthKeys, Remove.
  destruct fault as [err|].
  - destruct (IsNotExist err) eqn:Hne; cbn [fst snd]; split_and!.
    + split; [done |]. intros [[? _] | (e & ? & ?)]; [done |]. simplify_eq. congruence.
    + done.
    + done.
    + split; [| done]. intros _. right. by exists err.
    + done.
    + done.
  - destruct (files d !! sshAuthKeyFileName) as [keys|] eqn:Hk; cbn [fst snd files];
      split_and!.
    + split; [| done]. intros _. left. split; [done | by eexists].
    + done.
    + by intros [? ?].
    + split; [done |]. intros [[_ [? ?]] | (e & ? & _)]; done.
    + by rewrite delete_id.
    + by intros [? ?].
Qed.

(** ** The kernel-module property, the remaining paths *)

Lemma substring_0_0 (s : string) : substring 0 0 s = EmptyString.
Proof. by destruct s. Qed.

(** Where [index] finds the first space, the string splits there. *)
Lemma index_space_split (s : string) (m : nat) :
  index 0 " " s = Some m → ∃ rest, s = substring 0 m s +:+ " " +:+ rest.
Proof.
  revert m. induction s as [|b s IH]; intros m; [done |].
  cbn [index]. destruct (String.prefix " " (String b s)) eqn:Hpre.
  - intros [= <-]. cbn [String.prefix] in Hpre.
    destruct (ascii_dec " " b) as [<- |]; [| done].
    exists s. by rewrite substring_0_0.
  - destruct (index 0 " " s) as [n|]; [| done]. intros [= <-].
    destruct (IH n eq_refl) as [rest Hrest]. exists rest.
    cbn [substring]. rewrite append_cons. by rewrite <- Hrest.
Qed.

Lemma SplitN_2_first (s : string) :
  ∃ first rest, SplitN s " " 2 = first :: rest
    ∧ (first = "vhci-hcd"
       ↔ s = "vhci-hcd" ∨ ∃ tail, s = "vhci-hcd " +:+ tail).
Proof.
  cbn [SplitN]. destruct (index 0 " " s) as [m|] eqn:Hidx.
  - eexists _, _. split; [done |]. split.
    + intros Hfirst. right. destruct (index_space_split _ _ Hidx) as [rest Hrest].
      exists rest. rewrite Hfirst in Hrest. by rewrite Hrest.
    + intros [-> | [tail ->]]; [done |].
      rewrite !append_cons, append_nil_l in *.
      destruct tail; cbn in Hidx; by simplify_eq.
  - eexists _, _. split; [done |]. split; [by left |].
    intros [-> | [tail ->]]; [done |].
    rewrite !append_cons, append_nil_l in *. by destruct tail; cbn in Hidx.
Qed.

Lemma getDriverStatus_unfold (k : Kernel) :
  getDriverStatus k =
  match programs k "cat /proc/modules | grep vhci-hcd" with
  | None => (Returned false, k)
  | Some run =>
      let '(out, status) := run ["cat /proc/modules | grep vhci-hcd"] (modules k) in
      let k' := mkKernel (modules k) (programs k) (searchPath k)
                  (spawned k ++ [("cat /proc/modules | grep vhci-hcd",
                                  ["cat /proc/modules | grep vhci-hcd"])]) in
      match status with
      | 0 => match SplitN out " " 2 with
             | value :: _ => (Returned (String.eqb value "vhci-hcd"), k')
             | [] => (Panicked "runtime error: index out of range [0] with length 0", k')
             end
      | _ => (Returned false, k')
      end
  end.
Proof.
  unfold getDriverStatus. rewrite getDriverStatus_command.
  unfold Output. cbn [Err Path Args].
  destruct (programs k _) as [run|]; [| done].
  destruct (run _ _) as [out [|status]]; done.
Qed.

(** X17. [getDriverStatus] returns true exactly when an executable
    file named by the whole string [cat /proc/modules | grep vhci-hcd]
    exists, exits with status 0 when run with no argument, and prints
    [vhci-hcd] alone or followed by a space. *)
Theorem getDriverStatus_true_iff (k : Kernel) :
  (getDriverStatus k).1 = Returned true
  ↔ ∃ run out,
      programs k "cat /proc/modules | grep vhci-hcd" = Some run
      ∧ run ["cat /proc/modules | grep vhci-hcd"] (modules k) = (out, 0)
      ∧ (out = "vhci-hcd" ∨ ∃ tail, out = "vhci-hcd " +:+ tail).
Proof.
  rewrite getDriverStatus_unfold.
  destruct (programs k _) as [run|];
    [| split; [done | by intros (? & ? & ? & _)]].
  destruct (run _ _) as [out status] eqn:Hrun.
  destruct (SplitN_2_first out) as (first & rest & Hsplit & Hfirst).
  destruct status as [|status].
  - rewrite Hsplit. cbn [fst]. split.
    + intros [= Heq]. apply String.eqb_eq in Heq. exists run, out.
      split; [done |]. split; [done |]. by apply Hfirst.
    + intros (run' & out' & [= <-] & Hrun' & Hout). rewrite Hrun in Hrun'.
      simplify_eq. f_equal. apply String.eqb_eq. by apply Hfirst.
  - cbn [fst]. split; [done |].
    intros (run' & out' & [= <-] & Hrun' & _). rewrite Hrun in Hrun'. done.
Qed.

(** The split output always has a first element. *)
Lemma getDriverStatus_returns (k : Kernel) : ∃ b, (getDriverStatus k).1 = Returned b.
Proof.
  rewrite getDriverStatus_unfold.
  destruct (programs k _) as [run|]; [| by eauto].
  destruct (run _ _) as [out status].
  destruct (SplitN_2_first out) as (first & rest & Hsplit & _).
  destruct status as [|status]; [rewrite Hsplit |]; cbn [fst]; eauto.
Qed.

(** X18. [getDriverStatus] never panics: the element [0] of the split
    output always exists.  It leaves the module table alone and starts
    at most one process, the one named by the whole string. *)
Theorem getDriverStatus_never_panics (k : Kernel) :
  let r := getDriverStatus k in
  (∃ b, r.1 = Returned b)
  ∧ modules r.2 = modules k
  ∧ (spawned r.2 = spawned k
     ∨ spawned r.2
       = spawned k ++ [("cat /proc/modules | grep vhci-hcd",
                        ["cat /proc/modules | grep vhci-hcd"])]).
Proof.
  cbv zeta. rewrite getDriverStatus_unfold.
  destruct (programs k _) as [run|]; [| by eauto].
  destruct (run _ _) as [out status].
  destruct (SplitN_2_first out) as (first & rest & Hsplit & _).
  destruct status as [|status]; [rewrite Hsplit |]; cbn [fst snd modules spawned];
    eauto.
Qed.

(** X19. The answer of [getDriverStatus] does not depend on $PATH:
    the name it runs has a directory part and is never looked up. *)
Theorem getDriverStatus_ignores_PATH (dirs : list string) (k : Kernel) :
  (getDriverStatus (withSearchPath dirs k)).1 = (getDriverStatus k).1.
Proof.
  rewrite !getDriverStatus_unfold. unfold withSearchPath. cbn [programs modules].
  destruct (programs k _) as [run|]; [| done].
  destruct (run _ _) as [out [|status]]; [| done].
  by destruct (SplitN out " " 2).
Qed.

(** X20. On any machine without an executable file named by the whole
    pipeline string, [InitializeDBus] sets [loadUSBIP] to false,
    whatever the module table holds, and starts no process; when the
    exports succeed the exported property is false too. *)
Theorem InitializeDBus_without_pipeline_file (bus : BusFaults) (s : Service) :
  programs (kernel s) "cat /proc/modules | grep vhci-hcd" = None →
  let r := InitializeDBus bus s in
  loadUSBIP r.2 = false
  ∧ kernel r.2 = kernel s
  ∧ (bus = no_bus_faults → r.1 = Returned () ∧ exported r.2 = Some false).
Proof.
  intros Hnone. cbv zeta. unfold InitializeDBus.
  rewrite getDriverStatus_unfold, Hnone.
  destruct bus as [[e1|] [e2|] [e3|]]; cbn; split_and!; try done.
Qed.

(** X21. [InitializeDBus] returns exactly when the three exports
    succeed; it then exports the property with the value of
    [loadUSBIP].  In every case, also when an export fails and the call
    panics, [loadUSBIP] holds the answer of [getDriverStatus]. *)
Theorem InitializeDBus_property_matches_cache (bus : BusFaults) (s : Service) :
  let r := InitializeDBus bus s in
  (r.1 = Returned ()
   ↔ on_prop_export bus = None ∧ on_export bus = None
     ∧ on_export_introspectable bus = None)
  ∧ (r.1 = Returned () → exported r.2 = Some (loadUSBIP r.2))
  ∧ (on_prop_export bus ≠ None → exported r.2 = exported s)
  ∧ (getDriverStatus (kernel s)).1 = Returned (loadUSBIP r.2).
Proof.
  cbv zeta. unfold InitializeDBus.
  destruct (getDriverStatus_returns (kernel s)) as [b Hb].
  destruct (getDriverStatus (kernel s)) as [r k]. cbn [fst] in Hb. subst r.
  destruct bus as [[e1|] [e2|] [e3|]]; cbn; split_and!; try done;
    try (split; [done | by intros (? & ? & ?)]).
Qed.

(** X22. [LoadKernelDriver] never returns a non-nil error.  It returns
    nil exactly when the value is a boolean and the pipe could be
    created; otherwise it panics. *)
Theorem LoadKernelDriver_never_returns_error (pipe : option error) (c : Change)
    (s : Service) :
  let r := LoadKernelDriver pipe c s in
  (∀ e, r.1 ≠ Returned (Some e))
  ∧ (r.1 = Returned None ↔ (∃ v, Value c = VBool v) ∧ pipe = None).
Proof.
  cbv zeta. unfold LoadKernelDriver.
  destruct (Value c) as [v| |];
    [| split; [done | split; [done | by intros [[? ?] _]]]..].
  cbn [kernel]. rewrite LoadKernelDriver_command. unfold StdinPipe.
  destruct v, pipe as [err|]; cbn; (split; [done |]);
    (split; [done | by intros [_ ?]]) || (split; [| done]; intros _; split; [by eexists | done]).
Qed.

(** X23. [LoadKernelDriver] changes nothing but the package variable:
    for a write of true or of false the kernel, with its record of
    started processes, and the exported property are as before; a
    value that is not a boolean panics with the whole state
    unchanged. *)
Theorem LoadKernelDriver_touches_only_the_cache (pipe : option error) (c : Change)
    (s : Service) :
  let r := LoadKernelDriver pipe c s in
  kernel r.2 = kernel s
  ∧ exported r.2 = exported s
  ∧ ((∀ v, Value c ≠ VBool v) → r.2 = s ∧ ∃ msg, r.1 = Panicked msg).
Proof.
  cbv zeta. unfold LoadKernelDriver.
  destruct (Value c) as [v| |] eqn:Hv.
  - cbn [kernel]. rewrite LoadKernelDriver_command. unfold StdinPipe.
    destruct v, pipe as [err|]; cbn; split_and!; try done; intros H; by destruct (H _ eq_refl).
  - cbn. split_and!; [done | done |]. intros _. split; [done | by eexists].
  - cbn. split_and!; [done | done |]. intros _. split; [done | by eexists].
Qed.

Lemma InitializeDBus_without_pipeline_file_witness :
  let s := mkService true None (machine ["vhci-hcd"; "usbip-core"]) in
  let r := InitializeDBus no_bus_faults s in
  loadUSBIP r.2 = false
  ∧ kernel r.2 = kernel s
  ∧ (no_bus_faults = no_bus_faults → r.1 = Returned () ∧ exported r.2 = Some false).
Proof.
  intros s. apply (InitializeDBus_without_pipeline_file no_bus_faults s). reflexivity.
Defined.
